(** * The v2 puller's platform hooks: distribution/pull_v2_unix.go and its
      windows counterpart

    The puller has four platform hooks, [detectBaseLayer], [open],
    [checkTrusted] and [storeSignatures], compiled in two variants selected
    by a build tag.  This development embeds both variants of the first
    three and proves what they return and which collaborators they call.

    Collaborators whose code lives in other packages (the policy engine of
    containers/image, package reference, the image store, encoding/json,
    the HTTP transport) are interfaces here: type classes whose methods the
    theorems quantify over.  Every call that reaches a collaborator with an
    effect is appended to a log, so that "is never attempted" is a
    statement about the log. *)

From Stdlib Require Import ZArith String Ascii.
From stdpp Require Import base option list strings gmap fin_maps.

Local Open Scope string_scope.
Local Open Scope Z_scope.
Local Open Scope list_scope.

(** ** Go values *)

Definition Digest := string.
Definition URL := string.
Definition image_ID := string.
Definition DiffID := string.

(** Go's [error] interface, identified with the message [Error()] returns;
    the nil error is [None : option error]. *)
Record error := errorString { Error : string }.

(** [fmt.Errorf] on an already formatted message. *)
Definition fmt_Errorf (msg : string) : error := errorString msg.

(** [s == ""] *)
Definition is_empty_string (s : string) : bool := String.eqb s EmptyString.

(** [l[i]] on a slice: [None] stands for the run-time panic "index out of
    range". *)
Definition index {A : Type} (l : list A) (i : Z) : option A :=
  if (i <? 0) || (Z.of_nat (length l) <=? i) then None else l !! Z.to_nat i.

(** The reader [transport.NewHTTPReadSeeker] builds for a URL.  Two readers
    for one URL are different objects: [hrs_serial] is the number of calls
    logged before the reader was built. *)
Record httpReadSeeker := { hrs_url : URL; hrs_serial : nat }.

(** Calls to collaborators, in program order. *)
Inductive Call : Type :=
| Call_IsRunningImageAllowed
| Call_Manifest
| Call_Map
| Call_Blobs_Open (dgst : Digest)
| Call_NewHTTPReadSeeker (url : URL)
| Call_Seek (rs : httpReadSeeker) (offset whence : Z)
| Call_Close (rs : httpReadSeeker).

(** ** A monad for Go function bodies

    A body runs on the object it mutates through a pointer ([St]) and on
    the log of calls made so far; it returns a value, the final object and
    the final log, or panics. *)

Inductive outcome (St A : Type) : Type :=
| Returns (a : A) (st : St) (log : list Call)
| Panics (reason : string).
Arguments Returns {St A} a st log.
Arguments Panics {St A} reason.

Definition Go (St A : Type) : Type := St -> list Call -> outcome St A.

#[global] Instance Go_ret {St} : MRet (Go St) :=
  fun A a st log => Returns a st log.

#[global] Instance Go_bind {St} : MBind (Go St) :=
  fun A B k c st log =>
    match c st log with
    | Returns a st' log' => k a st' log'
    | Panics r => Panics r
    end.

Definition get {St} : Go St St := fun st log => Returns st st log.
Definition put {St} (st' : St) : Go St unit := fun _ log => Returns tt st' log.
Definition calls {St} : Go St (list Call) := fun st log => Returns log st log.
Definition call {St} (c : Call) : Go St unit :=
  fun st log => Returns tt st (log ++ [c]).
Definition panic {St A} (reason : string) : Go St A := fun _ _ => Panics reason.

(** Unfolds the monad down to the outcome of a run. *)
Ltac run := cbv [mbind mret Go_bind Go_ret get put calls call panic] in *; cbn [fst snd] in *.

(** ** Package image (declarations used by the hooks) *)

(** Modelled from the spec: the struct image.RootFS, whose declaration is
    in package image: "an ordered sequence of layer identifiers
    representing a full filesystem, plus an optional BaseLayer reference
    and a Type tag". *)
Record RootFS := { Type' : string; DiffIDs : list DiffID; BaseLayer : string }.

Definition set_BaseLayer (v : string) (r : RootFS) : RootFS :=
  {| Type' := Type' r; DiffIDs := DiffIDs r; BaseLayer := v |}.
Definition set_Type (v : string) (r : RootFS) : RootFS :=
  {| Type' := v; DiffIDs := DiffIDs r; BaseLayer := BaseLayer r |}.

(** The fields of image.V1Image that [detectBaseLayer] reads. *)
Record V1Image := { ID : string; Parent : string }.

(** [&image.V1Image{}] *)
Definition zero_V1Image : V1Image := {| ID := EmptyString; Parent := EmptyString |}.

(** A stored image; the store only holds images whose RootFS is set. *)
Record Image := { img_RootFS : RootFS }.

(** schema1.History and schema1.Manifest. *)
Record History_entry := { V1Compatibility : string }.
Record Manifest := {
  Name : string;
  Tag : string;
  Architecture : string;
  FSLayers : list Digest;
  History : list History_entry
}.

Definition with_History (h : list History_entry) (m : Manifest) : Manifest :=
  {| Name := Name m; Tag := Tag m; Architecture := Architecture m;
     FSLayers := FSLayers m; History := h |}.

(** [os.SEEK_SET] *)
Definition SEEK_SET : Z := 0.

(** ** Interfaces of the collaborators *)

(** What [detectBaseLayer] needs from packages image, encoding/json, fmt
    and the Go run time. *)
Class BaseLayerEnv := {
  (** the constant [image.TypeLayersWithBase] *)
  TypeLayersWithBase : string;
  (** the method [BaseLayerID] of RootFS, called on a RootFS of that type only *)
  BaseLayerID : RootFS -> string;
  (** [json.Unmarshal(data, v1img)]: the struct after the call and the error *)
  json_Unmarshal : string -> V1Image -> V1Image * option error;
  (** the verb [%q] of package fmt on a string, i.e. [strconv.Quote] *)
  strconv_Quote : string -> string;
  (** the order in which one [range] statement visits the entries of a map;
      the language leaves it unspecified *)
  range_order : gmap image_ID Image -> list (image_ID * Image)
}.

(** What [open] needs from the registry client and the HTTP transport.  The
    answers of the network may depend on everything that happened before,
    hence on the log. *)
Class TransportEnv := {
  BlobReader : Type;
  (** [ld.repo.Blobs(ctx).Open(ctx, dgst)] *)
  blobs_Open : list Call -> Digest -> option BlobReader * option error;
  (** [rsc.Seek(offset, whence)] on an HTTP reader *)
  http_Seek : list Call -> httpReadSeeker -> Z -> Z -> Z * option error
}.

(** [distribution.ReadSeekCloser], as [open] can return it. *)
Inductive ReadSeekCloser {net : TransportEnv} : Type :=
| FromBlobs (r : BlobReader)
| FromHTTP (r : httpReadSeeker).

(** What [checkTrusted] needs from package reference and from
    containers/image. *)
Class TrustEnv := {
  (** the interface [reference.Named] and its method [String] *)
  Named : Type;
  Named_String : Named -> string;
  (** the interface [types.UnparsedImage] *)
  UnparsedImage : Type;
  (** [unparsed.Manifest()]: manifest bytes, MIME type, error *)
  unparsed_Manifest : UnparsedImage -> string * string * option error;
  (** [signature.PolicyContext] and its method [IsRunningImageAllowed] *)
  PolicyContext : Type;
  IsRunningImageAllowed : PolicyContext -> UnparsedImage -> bool * option error;
  (** [manifest.Digest(mfst)] *)
  manifest_Digest : string -> Digest * option error;
  (** [reference.WithDigest(ref, dgst)] *)
  reference_WithDigest : Named -> Digest -> option Named * option error
}.

(** The fields of distribution.Descriptor and of v2LayerDescriptor that
    [open] reads. *)
Record Descriptor := { MediaType : string; Size : Z; URLs : list URL }.
Record v2LayerDescriptor := { digest : Digest; src : Descriptor }.

(** The fields of v2Puller that [checkTrusted] touches. *)
Record v2Puller {trust : TrustEnv} := {
  policyContext : PolicyContext;
  originalRef : option Named
}.

Definition set_originalRef {trust : TrustEnv} (ref : Named) (p : v2Puller) : v2Puller :=
  {| policyContext := policyContext p; originalRef := Some ref |}.

(** The fields of tls.Config, registry.APIEndpoint, registry.IndexInfo,
    registry.RepositoryInfo and types.AuthConfig that [ciImage] reads; the
    pointers [p.repoInfo] and [p.repoInfo.Index] are taken to be set. *)
Record tls_Config := { InsecureSkipVerify : bool }.
Record APIEndpoint := { TLSConfig : option tls_Config }.
Record IndexInfo := { Index_Name : string }.
Record RepositoryInfo := { Index : IndexInfo }.
Record AuthConfig := { Username : string; Password : string }.

(** types.DockerAuthConfig and the fields of types.SystemContext that
    [ciImage] sets; [None] is the nil pointer and [EmptyString] the path
    that was not set. *)
Record DockerAuthConfig := { auth_Username : string; auth_Password : string }.
Record SystemContext := {
  DockerDisableV1Ping : bool;
  DockerInsecureSkipTLSVerify : bool;
  DockerAuthConfig_of : option DockerAuthConfig;
  DockerRegistryUserAgent : string;
  DockerCertPath : string
}.

Definition set_DockerCertPath (v : string) (ctx : SystemContext) : SystemContext :=
  {| DockerDisableV1Ping := DockerDisableV1Ping ctx;
     DockerInsecureSkipTLSVerify := DockerInsecureSkipTLSVerify ctx;
     DockerAuthConfig_of := DockerAuthConfig_of ctx;
     DockerRegistryUserAgent := DockerRegistryUserAgent ctx;
     DockerCertPath := v |}.

(** What [ciImage] needs from containers/image, package registry,
    dockerversion and path/filepath. *)
Class ImageSourceEnv := {
  (** the named references of containers/image and their parser *)
  NormalizedNamed : Type;
  ParseNormalizedNamed : string -> NormalizedNamed * option error;
  (** [types.ImageReference] and [docker.NewReference] *)
  ImageReference : Type;
  docker_NewReference : NormalizedNamed -> ImageReference * option error;
  (** the type of [p.config.AuthConfigs] and [registry.ResolveAuthConfig] *)
  AuthConfigs : Type;
  registry_ResolveAuthConfig : AuthConfigs -> IndexInfo -> AuthConfig;
  (** the type of [p.config.RegistryService] and its method [SecureIndex] *)
  RegistryService : Type;
  SecureIndex : RegistryService -> string -> bool;
  (** the request context and [dockerversion.DockerUserAgent] *)
  gctx_Context : Type;
  DockerUserAgent : gctx_Context -> string;
  (** the variable [registry.CertsDir] and [filepath.Join] on two elements *)
  CertsDir : string;
  filepath_Join : string -> string -> string;
  (** [types.ImageSource] and [imgRef.NewImageSource(ctx)] *)
  ImageSource : Type;
  NewImageSource : ImageReference -> SystemContext -> ImageSource * option error;
  (** the UnparsedImage of containers/image and [UnparsedInstance(src, nil)] *)
  ci_UnparsedImage : Type;
  UnparsedInstance : ImageSource -> ci_UnparsedImage
}.

(** The fields of ImagePullConfig and of v2Puller that [ciImage] reads. *)
Record ImagePullConfig {source : ImageSourceEnv} := {
  config_AuthConfigs : AuthConfigs;
  V2Only : bool;
  config_RegistryService : RegistryService
}.
Record v2Puller_registry {source : ImageSourceEnv} := {
  endpoint : APIEndpoint;
  config : ImagePullConfig;
  repoInfo : RepositoryInfo
}.

(** [distribution.Descriptor{}] on the fields modelled. *)
Definition zero_Descriptor : Descriptor :=
  {| MediaType := EmptyString; Size := 0; URLs := [] |}.

(** ** The variant built with the windows tag *)

Module Windows.

Section detectBaseLayer.
Context {env : BaseLayerEnv}.

(** The condition of the [if] inside the loop; [&&] does not evaluate its
    right operand when the left one is false. *)
Definition references_base (parent : string) (img : Image) : bool :=
  if String.eqb (Type' (img_RootFS img)) TypeLayersWithBase
  then String.eqb (BaseLayerID (img_RootFS img)) parent
  else false.

(** [for _, img := range is.Map() { ... }] followed by the final [return];
    the state is the RootFS behind the pointer [rootFS]. *)
Fixpoint detect_range (imgs : list (image_ID * Image)) (v1img : V1Image)
  : Go RootFS (option error) :=
  match imgs with
  | [] =>
      mret (Some (fmt_Errorf ("Invalid base layer " +:+ strconv_Quote (Parent v1img))))
  | (_, img) :: imgs' =>
      if references_base (Parent v1img) img then
        rootFS ← get;
        put (set_BaseLayer (BaseLayer (img_RootFS img)) rootFS);;
        rootFS ← get;
        put (set_Type TypeLayersWithBase rootFS);;
        mret None
      else detect_range imgs' v1img
  end.

Definition detectBaseLayer (is' : gmap image_ID Image) (m : Manifest)
  : Go RootFS (option error) :=
  match index (History m) (Z.of_nat (length (History m)) - 1) with
  | None => panic "index out of range"
  | Some h =>
      let '(v1img, err) := json_Unmarshal (V1Compatibility h) zero_V1Image in
      match err with
      | Some e => mret (Some e)
      | None =>
          if is_empty_string (Parent v1img) then
            mret (Some (fmt_Errorf ("Last layer " +:+ strconv_Quote (ID v1img)
                                    +:+ " does not have a base layer reference")))
          else
            call Call_Map;;
            detect_range (range_order is') v1img
      end
  end.

End detectBaseLayer.

Section open.
Context {net : TransportEnv}.

(** [transport.NewHTTPReadSeeker(http.DefaultClient, url, nil)] *)
Definition NewHTTPReadSeeker (url : URL) : Go unit httpReadSeeker :=
  log ← calls;
  call (Call_NewHTTPReadSeeker url);;
  mret {| hrs_url := url; hrs_serial := length log |}.

(** [rsc.Seek(offset, whence)] *)
Definition Seek (rsc : httpReadSeeker) (offset whence : Z) : Go unit (Z * option error) :=
  log ← calls;
  call (Call_Seek rsc offset whence);;
  mret (http_Seek log rsc offset whence).

(** [rsc.Close()] *)
Definition Close (rsc : httpReadSeeker) : Go unit unit := call (Call_Close rsc).

(** The loop over [ld.src.URLs] and the [return rsc, err] after it;
    [rsc] and [err] are the two variables declared before the loop. *)
Fixpoint open_range (urls : list URL) (rsc : option ReadSeekCloser) (err : option error)
  : Go unit (option ReadSeekCloser * option error) :=
  match urls with
  | [] => mret (rsc, err)
  | url :: urls' =>
      r ← NewHTTPReadSeeker url;
      '(_, err) ← Seek r 0 SEEK_SET;
      match err with
      | None => mret (Some (FromHTTP r), err)
      | Some _ => Close r;; open_range urls' None err
      end
  end.

Definition open (ld : v2LayerDescriptor) : Go unit (option ReadSeekCloser * option error) :=
  if (Z.of_nat (length (URLs (src ld))) =? 0) then
    log ← calls;
    call (Call_Blobs_Open (digest ld));;
    let '(r, err) := blobs_Open log (digest ld) in
    mret (FromBlobs <$> r, err)
  else open_range (URLs (src ld)) None None.

End open.

Section checkTrusted.
Context {trust : TrustEnv}.

Definition checkTrusted (ref : Named) (unparsed : UnparsedImage)
  : Go v2Puller (option Named * option error) :=
  mret (Some ref, None).

End checkTrusted.

Section Descriptor.
(** the constant [schema2.MediaTypeForeignLayer] *)
Variable MediaTypeForeignLayer : string.

Definition Descriptor (ld : v2LayerDescriptor) : Descriptor :=
  if String.eqb (MediaType (src ld)) MediaTypeForeignLayer
     && (0 <? Z.of_nat (length (URLs (src ld))))
  then src ld
  else zero_Descriptor.

End Descriptor.

End Windows.

(** ** The variant built without the windows tag *)

Module NotWindows.

Definition detectBaseLayer (is' : gmap image_ID Image) (m : Manifest)
  : Go RootFS (option error) :=
  mret None.

Section open.
Context {net : TransportEnv}.

Definition open (ld : v2LayerDescriptor) : Go unit (option ReadSeekCloser * option error) :=
  log ← calls;
  call (Call_Blobs_Open (digest ld));;
  let '(r, err) := blobs_Open log (digest ld) in
  mret (FromBlobs <$> r, err).

End open.

Section checkTrusted.
Context {trust : TrustEnv}.

Definition checkTrusted (ref : Named) (unparsed : UnparsedImage)
  : Go v2Puller (option Named * option error) :=
  p ← get;
  put (set_originalRef ref p);;
  call Call_IsRunningImageAllowed;;
  let '(allowed, err) := IsRunningImageAllowed (policyContext p) unparsed in
  if negb allowed then
    match err with
    | Some e =>
        mret (None, Some (fmt_Errorf (Named_String ref +:+ " isn't allowed: " +:+ Error e)))
    | None =>
        mret (None, Some (fmt_Errorf (Named_String ref +:+ " isn't allowed")))
    end
  else
    match err with
    | Some e => mret (None, Some e)
    | None =>
        call Call_Manifest;;
        let '(mfst, _, err) := unparsed_Manifest unparsed in
        match err with
        | Some e => mret (None, Some e)
        | None =>
            let '(dgst, err) := manifest_Digest mfst in
            match err with
            | Some e => mret (None, Some e)
            | None =>
                let '(ref, err) := reference_WithDigest ref dgst in
                match err with
                | Some e => mret (None, Some e)
                | None => mret (ref, None)
                end
            end
        end
    end.

End checkTrusted.

Section ciImage.
Context {trust : TrustEnv} {source : ImageSourceEnv}.

(** The [types.SystemContext] that [ciImage] builds before it opens the
    image source: the statements from [isSecure := ...] to the end of the
    [if] on [SecureIndex]. *)
Definition systemContext (p : v2Puller_registry) (c : gctx_Context) : SystemContext :=
  let isSecure :=
    match TLSConfig (endpoint p) with
    | None => true
    | Some tlsConfig => negb (InsecureSkipVerify tlsConfig)
    end in
  let authConfig :=
    registry_ResolveAuthConfig (config_AuthConfigs (config p)) (Index (repoInfo p)) in
  let dockerAuthConfig :=
    {| auth_Username := Username authConfig; auth_Password := Password authConfig |} in
  let ctx :=
    {| DockerDisableV1Ping := V2Only (config p);
       DockerInsecureSkipTLSVerify := negb isSecure;
       DockerAuthConfig_of := Some dockerAuthConfig;
       DockerRegistryUserAgent := DockerUserAgent c;
       DockerCertPath := EmptyString |} in
  if SecureIndex (config_RegistryService (config p)) (Index_Name (Index (repoInfo p)))
  then set_DockerCertPath (filepath_Join CertsDir (Index_Name (Index (repoInfo p)))) ctx
  else ctx.

(** Returns the unparsed image, its closer and the error. *)
Definition ciImage (p : v2Puller_registry) (c : gctx_Context) (ref : Named)
  : option ci_UnparsedImage * option ImageSource * option error :=
  let '(dockerRef, err) := ParseNormalizedNamed (Named_String ref) in
  match err with
  | Some e => (None, None, Some e)
  | None =>
      let '(imgRef, err) := docker_NewReference dockerRef in
      match err with
      | Some e => (None, None, Some e)
      | None =>
          let ctx := systemContext p c in
          let '(src, err) := NewImageSource imgRef ctx in
          match err with
          | Some e => (None, None, Some e)
          | None => (Some (UnparsedInstance src), Some src, None)
          end
      end
  end.

End ciImage.

End NotWindows.

(** ** Vocabulary of the statements *)

Section Vocabulary.
Context {net : TransportEnv} {trust : TrustEnv}.

Implicit Types (log : list Call) (url u : URL) (urls : list URL).

(** The reader the loop builds for [url] after the calls of [log]. *)
Definition reader_at log url : httpReadSeeker :=
  {| hrs_url := url; hrs_serial := length log |}.

(** The error of [Seek(0, os.SEEK_SET)] in an attempt on [url] that starts
    after the calls of [log]. *)
Definition attempt_error log url : option error :=
  (http_Seek (log ++ [Call_NewHTTPReadSeeker url]) (reader_at log url) 0 SEEK_SET).2.

(** The calls of one attempt that fails: build the reader, seek, close. *)
Definition failed_attempt log url : list Call :=
  [Call_NewHTTPReadSeeker url; Call_Seek (reader_at log url) 0 SEEK_SET;
   Call_Close (reader_at log url)].

(** The log after one failed attempt on each of [urls], in order. *)
Fixpoint after_failures log urls : list Call :=
  match urls with
  | [] => log
  | u :: urls' => after_failures (log ++ failed_attempt log u) urls'
  end.

(** Each of [urls] fails when they are tried in order after [log]. *)
Fixpoint all_fail log urls : Prop :=
  match urls with
  | [] => True
  | u :: urls' => attempt_error log u <> None /\ all_fail (log ++ failed_attempt log u) urls'
  end.

(** The error of the last of these attempts; [err] when there is none. *)
Fixpoint last_error log urls (err : option error) : option error :=
  match urls with
  | [] => err
  | u :: urls' => last_error (log ++ failed_attempt log u) urls' (attempt_error log u)
  end.

(** The URLs for which a reader was built, in the order of the calls. *)
Definition attempted log : list URL :=
  omap (fun c => match c with Call_NewHTTPReadSeeker u => Some u | _ => None end) log.

(** [ref] pinned to the canonical digest of the manifest of [unparsed]:
    what [reference.WithDigest] makes of [ref] and [manifest.Digest] of the
    manifest bytes. *)
Definition pinned_reference (ref : Named) (unparsed : UnparsedImage) : option Named :=
  (reference_WithDigest ref (manifest_Digest (unparsed_Manifest unparsed).1.1).1).1.

End Vocabulary.

(** ** Vocabulary of the further statements *)

Section CallsAndEnvironments.

Implicit Types (log : list Call).

(** The readers on which [Seek] was called, in the order of the calls. *)
Definition sought log : list httpReadSeeker :=
  omap (fun c => match c with Call_Seek rs _ _ => Some rs | _ => None end) log.

(** The readers that were closed, in the order of the calls. *)
Definition closed log : list httpReadSeeker :=
  omap (fun c => match c with Call_Close rs => Some rs | _ => None end) log.

(** The digests asked from the blob store of the registry. *)
Definition registry_calls log : list Digest :=
  omap (fun c => match c with Call_Blobs_Open dgst => Some dgst | _ => None end) log.

(** [env] with another order of visit for [range]. *)
Definition with_range_order (env : BaseLayerEnv)
    (order : gmap image_ID Image -> list (image_ID * Image)) : BaseLayerEnv :=
  {| TypeLayersWithBase := TypeLayersWithBase (BaseLayerEnv := env);
     BaseLayerID := BaseLayerID (BaseLayerEnv := env);
     json_Unmarshal := json_Unmarshal (BaseLayerEnv := env);
     strconv_Quote := strconv_Quote (BaseLayerEnv := env);
     range_order := order |}.

(** [env] with another method [BaseLayerID]. *)
Definition with_BaseLayerID (env : BaseLayerEnv) (f : RootFS -> string) : BaseLayerEnv :=
  {| TypeLayersWithBase := TypeLayersWithBase (BaseLayerEnv := env);
     BaseLayerID := f;
     json_Unmarshal := json_Unmarshal (BaseLayerEnv := env);
     strconv_Quote := strconv_Quote (BaseLayerEnv := env);
     range_order := range_order (BaseLayerEnv := env) |}.

(** The first non-nil error of three, in order. *)
Definition first_error (e1 e2 e3 : option error) : option error :=
  match e1, e2 with
  | Some e, _ => Some e
  | None, Some e => Some e
  | None, None => e3
  end.

End CallsAndEnvironments.

(** ** Stand-ins for the collaborators

    Small executable instances of the three interfaces, in the manner of
    the fakes a Go test would inject.  They are used to run the hooks on
    concrete inputs; no theorem below depends on them except the examples
    that say so. *)

Module Sample.

(** The double quote character, as a string. *)
Definition dq : string := String (ascii_of_nat 34) EmptyString.
(** The backslash character. *)
Definition backslash : ascii := ascii_of_nat 92.

Fixpoint strip_prefix (p s : string) : option string :=
  match p, s with
  | EmptyString, _ => Some s
  | String a p', String b s' => if Ascii.eqb a b then strip_prefix p' s' else None
  | String _ _, EmptyString => None
  end.

(** Reads a JSON string body up to its closing quote; escapes are not
    supported. *)
Fixpoint until_quote (s : string) : option (string * string) :=
  match s with
  | EmptyString => None
  | String c s' =>
      if Ascii.eqb c (ascii_of_nat 34) then Some (EmptyString, s')
      else if Ascii.eqb c backslash then None
      else match until_quote s' with
           | Some (a, b) => Some (String c a, b)
           | None => None
           end
  end.

(** The JSON text [{"id":"<id>","parent":"<parent>"}]. *)
Definition v1compat (id parent : string) : string :=
  "{" +:+ dq +:+ "id" +:+ dq +:+ ":" +:+ dq +:+ id +:+ dq +:+ ","
  +:+ dq +:+ "parent" +:+ dq +:+ ":" +:+ dq +:+ parent +:+ dq +:+ "}".

(** The JSON text [{"id":"<id>"}]. *)
Definition v1compat_root (id : string) : string :=
  "{" +:+ dq +:+ "id" +:+ dq +:+ ":" +:+ dq +:+ id +:+ dq +:+ "}".

(** A decoder for JSON texts of the two shapes above with [id] and
    [parent] of printable ASCII without quote or backslash, on which it
    agrees with [json.Unmarshal] into a V1Image; any other text is
    refused. *)
Definition unmarshal (data : string) (v : V1Image) : V1Image * option error :=
  let bad := (v, Some (errorString "invalid character looking for beginning of value")) in
  match strip_prefix ("{" +:+ dq +:+ "id" +:+ dq +:+ ":" +:+ dq) data with
  | None => bad
  | Some r1 =>
      match until_quote r1 with
      | None => bad
      | Some (id, r2) =>
          if String.eqb r2 "}" then ({| ID := id; Parent := Parent v |}, None)
          else
            match strip_prefix ("," +:+ dq +:+ "parent" +:+ dq +:+ ":" +:+ dq) r2 with
            | None => bad
            | Some r3 =>
                match until_quote r3 with
                | None => bad
                | Some (parent, r4) =>
                    if String.eqb r4 "}" then ({| ID := id; Parent := parent |}, None)
                    else bad
                end
            end
      end
  end.

Definition hex_digit (n : nat) : string :=
  match n with
  | 0 => "0" | 1 => "1" | 2 => "2" | 3 => "3" | 4 => "4" | 5 => "5" | 6 => "6" | 7 => "7"
  | 8 => "8" | 9 => "9" | 10 => "a" | 11 => "b" | 12 => "c" | 13 => "d" | 14 => "e"
  | _ => "f"
  end%nat.

Definition quote_ascii (c : ascii) : string :=
  let n := nat_of_ascii c in
  let one := String c EmptyString in
  let esc := String backslash EmptyString in
  if (n =? 34)%nat || (n =? 92)%nat then esc +:+ one
  else if (32 <=? n)%nat && (n <=? 126)%nat then one
  else if (n =? 7)%nat then esc +:+ "a"
  else if (n =? 8)%nat then esc +:+ "b"
  else if (n =? 12)%nat then esc +:+ "f"
  else if (n =? 10)%nat then esc +:+ "n"
  else if (n =? 13)%nat then esc +:+ "r"
  else if (n =? 9)%nat then esc +:+ "t"
  else if (n =? 11)%nat then esc +:+ "v"
  else esc +:+ "x" +:+ hex_digit (n / 16) +:+ hex_digit (n mod 16).

Fixpoint quote_body (s : string) : string :=
  match s with
  | EmptyString => EmptyString
  | String c s' => quote_ascii c +:+ quote_body s'
  end.

(** [strconv.Quote] on ASCII text: on bytes above 127 the original decodes
    UTF-8 first, which this stand-in does not. *)
Definition quote (s : string) : string := dq +:+ quote_body s +:+ dq.

(** Base layers are identified by their name in the examples; the range
    statement visits a map in the order [map_to_list] lists it. *)
Definition base_layer_env : BaseLayerEnv := {|
  TypeLayersWithBase := "layers+base";
  BaseLayerID := BaseLayer;
  json_Unmarshal := unmarshal;
  strconv_Quote := quote;
  range_order := map_to_list
|}.

(** A network in which the URLs of [dead] answer every seek with an error
    that names the URL, and every other URL answers; the registry serves
    every blob. *)
Definition dead_error (url : URL) : error := errorString ("no answer from " +:+ url).

Definition transport_env (dead : list URL) : TransportEnv := {|
  BlobReader := Digest;
  blobs_Open := fun _ dgst => (Some dgst, None);
  http_Seek := fun _ rs offset _ =>
    if bool_decide (hrs_url rs ∈ dead) then (0, Some (dead_error (hrs_url rs)))
    else (offset, None)
|}.

(** Named references as name, optional tag and optional digest. *)
Record ref := { ref_name : string; ref_tag : option string; ref_digest : option Digest }.

Definition ref_String (r : ref) : string :=
  ref_name r
  +:+ match ref_tag r with Some t => ":" +:+ t | None => EmptyString end
  +:+ match ref_digest r with Some d => "@" +:+ d | None => EmptyString end.

(** An unparsed image that hands out fixed manifest bytes, or fails. *)
Record unparsed := { u_manifest : string; u_mime : string; u_err : option error }.

(** A policy engine that answers with the verdict it was configured with;
    a digest that stands for the SHA-256 of the bytes; [WithDigest] keeps
    the name and pins the digest. *)
Definition trust_env : TrustEnv := {|
  Named := ref;
  Named_String := ref_String;
  UnparsedImage := unparsed;
  unparsed_Manifest := fun u => (u_manifest u, u_mime u, u_err u);
  PolicyContext := bool * option error;
  IsRunningImageAllowed := fun pc _ => pc;
  manifest_Digest := fun mfst => ("sha256:" +:+ mfst, None);
  reference_WithDigest := fun r dgst =>
    (Some {| ref_name := ref_name r; ref_tag := None; ref_digest := Some dgst |}, None)
|}.

(** Data for the examples. *)

Definition entry (id parent : string) : History_entry :=
  {| V1Compatibility := v1compat id parent |}.

Definition manifest_of (h : list History_entry) : Manifest :=
  {| Name := "repo/image"; Tag := "latest"; Architecture := "amd64";
     FSLayers := []; History := h |}.

(** A stored image that extends the base layer [b]. *)
Definition based_on (b : string) : Image :=
  {| img_RootFS := {| Type' := "layers+base"; DiffIDs := ["d0"]; BaseLayer := b |} |}.

(** A stored image without base layer. *)
Definition self_contained : Image :=
  {| img_RootFS := {| Type' := "layers"; DiffIDs := ["d9"]; BaseLayer := "A" |} |}.

Definition store_A : gmap image_ID Image := {[ "img1" := based_on "A" ]}.
Definition store_AC : gmap image_ID Image :=
  <[ "img1" := based_on "A" ]> (<[ "img2" := based_on "C" ]> {[ "img3" := self_contained ]}).

(** The RootFS of the image being pulled. *)
Definition fs0 : RootFS :=
  {| Type' := "layers"; DiffIDs := ["d1"; "d2"]; BaseLayer := EmptyString |}.

(** Two history entries: the first declares parent A, the last parent B. *)
Definition manifest_AB : Manifest := manifest_of [entry "first" "A"; entry "last" "B"].

(** A layer with three alternate URLs. *)
Definition foreign_layer : v2LayerDescriptor :=
  {| digest := "sha256:aa";
     src := {| MediaType := "application/vnd.docker.image.rootfs.foreign.diff.tar.gzip";
               Size := 10; URLs := ["http://u1"; "http://u2"; "http://u3"] |} |}.

(** A reference with a tag, and one that already carries a digest. *)
Definition ref_tagged : ref :=
  {| ref_name := "repo/image"; ref_tag := Some "latest"; ref_digest := None |}.
Definition ref_digested : ref :=
  {| ref_name := "repo/image"; ref_tag := None; ref_digest := Some "sha256:old" |}.

Definition unparsed0 : unparsed :=
  {| u_manifest := "MANIFEST"; u_mime := "application/json"; u_err := None |}.

(** A puller whose policy engine answers [verdict]. *)
Definition puller (verdict : bool * option error) : v2Puller (trust := trust_env) :=
  @Build_v2Puller trust_env verdict None.

(** The media type of foreign layers in the examples. *)
Definition foreign : string := "application/vnd.docker.image.rootfs.foreign.diff.tar.gzip".

(** An ordinary layer: no alternate URL. *)
Definition registry_layer : v2LayerDescriptor :=
  {| digest := "sha256:bb";
     src := {| MediaType := "application/vnd.docker.image.rootfs.diff.tar.gzip";
               Size := 20; URLs := [] |} |}.

(** A layer that lists a URL under the media type of ordinary layers. *)
Definition mislabelled_layer : v2LayerDescriptor :=
  {| digest := "sha256:cc";
     src := {| MediaType := "application/vnd.docker.image.rootfs.diff.tar.gzip";
               Size := 30; URLs := ["http://u2"] |} |}.

(** A manifest whose last history entry is no JSON text. *)
Definition manifest_garbled : Manifest :=
  manifest_of [entry "first" "A"; {| V1Compatibility := "garbage" |}].

(** The order of [map_to_list], reversed. *)
Definition reversed (store : gmap image_ID Image) : list (image_ID * Image) :=
  reverse (map_to_list store).

(** A method [BaseLayerID] that differs from the one of the examples on
    RootFS without base layer only. *)
Definition BaseLayerID_or_none (r : RootFS) : string :=
  if String.eqb (Type' r) "layers+base" then BaseLayer r else "none".

(** An unparsed image whose manifest cannot be fetched. *)
Definition unparsed_unreachable : unparsed :=
  {| u_manifest := EmptyString; u_mime := EmptyString;
     u_err := Some (errorString "manifest unknown") |}.

(** Image sources that remember the reference and the context they were
    opened with; references are normalised by a registry prefix; the
    registry service is the list of its insecure registries. *)
Definition image_source_env : ImageSourceEnv := {|
  NormalizedNamed := string;
  ParseNormalizedNamed := fun s =>
    if is_empty_string s
    then (s, Some (errorString "repository name must have at least one component"))
    else ("docker.io/" +:+ s, None);
  ImageReference := string;
  docker_NewReference := fun r => ("//" +:+ r, None);
  AuthConfigs := gmap string AuthConfig;
  registry_ResolveAuthConfig := fun cfgs idx =>
    default {| Username := EmptyString; Password := EmptyString |} (cfgs !! Index_Name idx);
  RegistryService := list string;
  SecureIndex := fun insecure name => negb (bool_decide (name ∈ insecure));
  gctx_Context := string;
  DockerUserAgent := fun c => "docker/1.12 " +:+ c;
  CertsDir := "/etc/docker/certs.d";
  filepath_Join := fun a b => a +:+ "/" +:+ b;
  ImageSource := string * SystemContext;
  NewImageSource := fun r ctx => ((r, ctx), None);
  ci_UnparsedImage := string * SystemContext;
  UnparsedInstance := fun src => src
|}.

(** A puller for the index [index] of a registry service with the insecure
    registries [insecure]. *)
Definition registry_puller (tls : option tls_Config) (insecure : list string)
    (index : string) : v2Puller_registry (source := image_source_env) :=
  @Build_v2Puller_registry image_source_env
    {| TLSConfig := tls |}
    (@Build_ImagePullConfig image_source_env ∅ true insecure)
    {| Index := {| Index_Name := index |} |}.

End Sample.

(** * Properties *)

(** ** Slices *)

Lemma index_last {A : Type} (front : list A) (x : A) :
  index (front ++ [x]) (Z.of_nat (length (front ++ [x])) - 1) = Some x.
Proof.
  unfold index. rewrite length_app, Nat.add_1_r, Nat2Z.inj_succ.
  replace (Z.succ (Z.of_nat (length front)) - 1) with (Z.of_nat (length front)) by lia.
  rewrite Nat2Z.id.
  destruct (Z.ltb_spec (Z.of_nat (length front)) 0) as [Hneg|_]; [lia|].
  destruct (Z.leb_spec (Z.succ (Z.of_nat (length front))) (Z.of_nat (length front)))
    as [Hle|_]; [lia|].
  cbn [orb]. by rewrite list_lookup_middle.
Qed.

Lemma index_nil {A : Type} (i : Z) : index (@nil A) i = None.
Proof. unfold index. by destruct (_ || _). Qed.

Lemma list_snoc_or_nil {A : Type} (l : list A) :
  l = [] \/ exists (front : list A) (x : A), l = front ++ [x].
Proof.
  induction l as [|a l IH] using rev_ind; [by left|]. right. by exists l, a.
Qed.

(** ** The Base Layer Resolver *)

Section BaseLayerResolver.
Context {env : BaseLayerEnv}.

Implicit Types (store : gmap image_ID Image) (m : Manifest) (fs : RootFS).
Implicit Types (log : list Call) (v1img : V1Image) (img : Image).

Lemma references_base_true parent img :
  Windows.references_base parent img = true <->
  Type' (img_RootFS img) = TypeLayersWithBase /\ BaseLayerID (img_RootFS img) = parent.
Proof.
  unfold Windows.references_base.
  destruct (String.eqb_spec (Type' (img_RootFS img)) TypeLayersWithBase) as [Ht|Ht].
  - rewrite String.eqb_eq. tauto.
  - split; [discriminate|]. intros [? _]. contradiction.
Qed.

Lemma references_base_false parent img :
  Windows.references_base parent img = false <->
  ~ (Type' (img_RootFS img) = TypeLayersWithBase /\ BaseLayerID (img_RootFS img) = parent).
Proof.
  rewrite <- references_base_true. by destruct (Windows.references_base parent img).
Qed.

(** The loop falls through to the final [return] when no visited image
    references the parent. *)
Lemma detect_range_none imgs v1img fs log :
  Forall (fun p => Windows.references_base (Parent v1img) p.2 = false) imgs ->
  Windows.detect_range imgs v1img fs log =
    Returns (Some (fmt_Errorf ("Invalid base layer " +:+ strconv_Quote (Parent v1img))))
            fs log.
Proof.
  induction 1 as [|[id img] imgs Hhd _ IH]; [done|].
  cbn [Windows.detect_range]. cbn [snd] in Hhd. by rewrite Hhd.
Qed.

(** The loop returns at the first visited image that references the
    parent. *)
Lemma detect_range_first pre id img post v1img fs log :
  Forall (fun p => Windows.references_base (Parent v1img) p.2 = false) pre ->
  Windows.references_base (Parent v1img) img = true ->
  Windows.detect_range (pre ++ (id, img) :: post) v1img fs log =
    Returns None
            {| Type' := TypeLayersWithBase; DiffIDs := DiffIDs fs;
               BaseLayer := BaseLayer (img_RootFS img) |}
            log.
Proof.
  intros Hpre Himg. induction Hpre as [|[id' img'] pre Hhd _ IH].
  - cbn [app Windows.detect_range]. by rewrite Himg.
  - cbn [app Windows.detect_range]. cbn [snd] in Hhd. by rewrite Hhd.
Qed.

(** Every list either has no element satisfying a test or splits at the
    first one that does. *)
Lemma first_split {A : Type} (f : A -> bool) (l : list A) :
  Forall (fun x => f x = false) l \/
  exists (pre : list A) (x : A) (post : list A),
    l = pre ++ x :: post /\ Forall (fun y => f y = false) pre /\ f x = true.
Proof.
  induction l as [|a l [IH|(pre & x & post & -> & Hpre & Hx)]].
  - left. constructor.
  - destruct (f a) eqn:Ha.
    + right. exists [], a, l. by repeat split.
    + left. by constructor.
  - destruct (f a) eqn:Ha.
    + right. exists [], a, (pre ++ x :: post). by repeat split.
    + right. exists (a :: pre), x, post. repeat split; [|done]. by constructor.
Qed.

(** What a run of the loop can do to the RootFS and to the log. *)
Lemma detect_range_frame imgs v1img fs log :
  exists err fs',
    Windows.detect_range imgs v1img fs log = Returns err fs' log /\
    DiffIDs fs' = DiffIDs fs /\ (err <> None -> fs' = fs).
Proof.
  destruct (first_split (fun p => Windows.references_base (Parent v1img) p.2) imgs)
    as [Hnone|(pre & [id img] & post & -> & Hpre & Hx)].
  - eexists _, fs. rewrite (detect_range_none _ _ _ _ Hnone). done.
  - eexists None, _. rewrite (detect_range_first _ _ _ _ _ _ _ Hpre Hx). done.
Qed.

(** The body of [detectBaseLayer] once the last history entry is known. *)
Lemma detectBaseLayer_last store m front h fs log :
  History m = front ++ [h] ->
  Windows.detectBaseLayer store m fs log =
    (let '(v1img, err) := json_Unmarshal (V1Compatibility h) zero_V1Image in
     match err with
     | Some e => Returns (Some e) fs log
     | None =>
         if is_empty_string (Parent v1img) then
           Returns (Some (fmt_Errorf ("Last layer " +:+ strconv_Quote (ID v1img)
                                      +:+ " does not have a base layer reference")))
                   fs log
         else Windows.detect_range (range_order store) v1img fs (log ++ [Call_Map])
     end).
Proof.
  intros Hm. unfold Windows.detectBaseLayer. rewrite Hm, index_last.
  destruct (json_Unmarshal _ _) as [v1img [e|]]; [done|].
  by destruct (is_empty_string _).
Qed.

(** C2 (amended).  For every manifest with at least one history entry,
    the resolver obtains the declared parent by decoding the metadata of
    the LAST entry [h] of [m.History] (index [len(m.History)-1]): the run
    returns the decoder's error on that metadata, or the "Last layer"
    error when the [Parent] decoded from it is empty, or else is the scan
    of the store for the image whose base-layer identifier is the [Parent]
    decoded from it.  The entries before the last have no influence: the
    run is the run on the manifest that has [h] alone. *)
Theorem detectBaseLayer_decodes_last_entry store m front h fs log :
  History m = front ++ [h] ->
  Windows.detectBaseLayer store m fs log =
    match json_Unmarshal (V1Compatibility h) zero_V1Image with
    | (_, Some e) => Returns (Some e) fs log
    | (v1img, None) =>
        if is_empty_string (Parent v1img) then
          Returns (Some (fmt_Errorf ("Last layer " +:+ strconv_Quote (ID v1img)
                                     +:+ " does not have a base layer reference")))
                  fs log
        else Windows.detect_range (range_order store) v1img fs (log ++ [Call_Map])
    end
  /\ Windows.detectBaseLayer store m fs log =
     Windows.detectBaseLayer store (with_History [h] m) fs log.
Proof.
  intros Hm. split.
  - rewrite (detectBaseLayer_last store m front h fs log Hm).
    by destruct (json_Unmarshal _ _) as [v1img [e|]].
  - rewrite (detectBaseLayer_last store m front h fs log Hm).
    by rewrite (detectBaseLayer_last store (with_History [h] m) [] h fs log).
Qed.

(** C4.  When the metadata of the entry the resolver decodes (the oldest
    layer's, which schema1 lists last) declares a non-empty parent and no
    stored image has a RootFS of type layers-with-base whose base-layer
    identifier is that parent, the resolver returns the error
    [Invalid base layer %q] formatted with the parent, and leaves the
    RootFS as it was. *)
Theorem detectBaseLayer_unresolved store m front h v1img fs log :
  range_order store ≡ₚ map_to_list store ->
  History m = front ++ [h] ->
  json_Unmarshal (V1Compatibility h) zero_V1Image = (v1img, None) ->
  Parent v1img <> EmptyString ->
  (forall id img, store !! id = Some img ->
     ~ (Type' (img_RootFS img) = TypeLayersWithBase /\
        BaseLayerID (img_RootFS img) = Parent v1img)) ->
  Windows.detectBaseLayer store m fs log =
    Returns (Some (fmt_Errorf ("Invalid base layer " +:+ strconv_Quote (Parent v1img))))
            fs (log ++ [Call_Map]).
Proof.
  intros Hperm Hm Hjson Hparent Hnone.
  rewrite (detectBaseLayer_last store m front h fs log Hm), Hjson.
  unfold is_empty_string.
  destruct (String.eqb_spec (Parent v1img) EmptyString) as [He|_]; [done|].
  apply detect_range_none, Forall_forall. intros [id img] Hin. cbn [snd].
  apply references_base_false, (Hnone id).
  apply elem_of_map_to_list. by rewrite <- Hperm.
Qed.

(** C5.  When the decoded metadata declares the empty parent, the resolver
    returns the error [Last layer %q does not have a base layer reference]
    and has made no call to the image store: the log is the one it
    started with, whatever the store holds. *)
Theorem detectBaseLayer_missing_parent store m front h v1img fs log :
  History m = front ++ [h] ->
  json_Unmarshal (V1Compatibility h) zero_V1Image = (v1img, None) ->
  Parent v1img = EmptyString ->
  Windows.detectBaseLayer store m fs log =
    Returns (Some (fmt_Errorf ("Last layer " +:+ strconv_Quote (ID v1img)
                               +:+ " does not have a base layer reference")))
            fs log.
Proof.
  intros Hm Hjson Hparent.
  rewrite (detectBaseLayer_last store m front h fs log Hm), Hjson.
  unfold is_empty_string. by rewrite Hparent.
Qed.

(** C8.  When some stored image has a RootFS of type layers-with-base whose
    base-layer identifier is the declared parent, the resolver returns nil,
    and the RootFS of the new image then has the BaseLayer of a stored
    image that matches (the first one the loop visits) and the type
    layers-with-base. *)
Theorem detectBaseLayer_resolved store m front h v1img fs log :
  range_order store ≡ₚ map_to_list store ->
  History m = front ++ [h] ->
  json_Unmarshal (V1Compatibility h) zero_V1Image = (v1img, None) ->
  Parent v1img <> EmptyString ->
  (exists id img, store !! id = Some img /\
     Type' (img_RootFS img) = TypeLayersWithBase /\
     BaseLayerID (img_RootFS img) = Parent v1img) ->
  exists id img,
    store !! id = Some img /\
    Type' (img_RootFS img) = TypeLayersWithBase /\
    BaseLayerID (img_RootFS img) = Parent v1img /\
    Windows.detectBaseLayer store m fs log =
      Returns None
              {| Type' := TypeLayersWithBase; DiffIDs := DiffIDs fs;
                 BaseLayer := BaseLayer (img_RootFS img) |}
              (log ++ [Call_Map]).
Proof.
  intros Hperm Hm Hjson Hparent (id0 & img0 & Hin0 & Ht0 & Hb0).
  rewrite (detectBaseLayer_last store m front h fs log Hm), Hjson.
  unfold is_empty_string.
  destruct (String.eqb_spec (Parent v1img) EmptyString) as [He|_]; [done|].
  destruct (first_split (fun p => Windows.references_base (Parent v1img) p.2)
              (range_order store))
    as [Hnone|(pre & [id img] & post & Hsplit & Hpre & Hx)].
  - exfalso. rewrite Forall_forall in Hnone.
    assert (Hin : (id0, img0) ∈ range_order store).
    { rewrite Hperm. by apply elem_of_map_to_list. }
    apply Hnone in Hin. cbn [snd] in Hin.
    apply references_base_false in Hin. by apply Hin.
  - cbn [snd] in Hx. exists id, img.
    assert (Hin : (id, img) ∈ map_to_list store).
    { rewrite <- Hperm, Hsplit. set_solver. }
    apply elem_of_map_to_list in Hin.
    destruct (proj1 (references_base_true _ _) Hx) as [Ht Hb].
    repeat split; [done..|].
    rewrite Hsplit. by apply detect_range_first.
Qed.

(** C10.  Every run of [detectBaseLayer] that returns leaves DiffIDs, the
    one field of the RootFS besides BaseLayer and Type, as it was, and when
    it returns an error the whole RootFS is as it was.  The only run that
    does not return is the panic on a manifest without history, which
    comes before any write.  The variant without the windows tag returns
    nil and writes nothing. *)
Theorem detectBaseLayer_frame store m fs log :
  match Windows.detectBaseLayer store m fs log with
  | Returns err fs' _ => DiffIDs fs' = DiffIDs fs /\ (err <> None -> fs' = fs)
  | Panics _ => History m = []
  end
  /\ NotWindows.detectBaseLayer store m fs log = Returns None fs log.
Proof.
  split; [|done].
  destruct (list_snoc_or_nil (History m)) as [Hm|(front & h & Hm)].
  - unfold Windows.detectBaseLayer. by rewrite Hm, index_nil.
  - rewrite (detectBaseLayer_last store m front h fs log Hm).
    destruct (json_Unmarshal _ _) as [v1img [e|]]; [done|].
    destruct (is_empty_string _); [done|].
    destruct (detect_range_frame (range_order store) v1img fs (log ++ [Call_Map]))
      as (err & fs' & -> & Hd & He).
    done.
Qed.

End BaseLayerResolver.

(** ** The Layer Descriptor *)

Section LayerDescriptor.
Context {net : TransportEnv}.

Implicit Types (log : list Call) (url u : URL) (urls pre post : list URL).

Lemma after_failures_app log pre urls :
  after_failures log (pre ++ urls) = after_failures (after_failures log pre) urls.
Proof. revert log. induction pre as [|u pre IH]; intros log; [done|]. cbn. apply IH. Qed.

Lemma all_fail_app log pre urls :
  all_fail log (pre ++ urls) <-> all_fail log pre /\ all_fail (after_failures log pre) urls.
Proof.
  revert log. induction pre as [|u pre IH]; intros log; cbn; [tauto|].
  rewrite IH. tauto.
Qed.

Lemma last_error_snoc log pre u err :
  last_error log (pre ++ [u]) err = attempt_error (after_failures log pre) u.
Proof. revert log err. induction pre as [|v pre IH]; intros log err; [done|]. cbn. apply IH. Qed.

Lemma attempted_app log log' : attempted (log ++ log') = attempted log ++ attempted log'.
Proof. apply omap_app. Qed.

Lemma attempted_after_failures log urls :
  attempted (after_failures log urls) = attempted log ++ urls.
Proof.
  revert log. induction urls as [|u urls IH]; intros log; cbn.
  - by rewrite app_nil_r.
  - rewrite IH, attempted_app. cbn. by rewrite <- app_assoc.
Qed.

(** Whatever the network answers, either every URL fails or the list
    splits at the first URL that answers. *)
Lemma all_fail_or_first_success log urls :
  all_fail log urls \/
  exists (pre : list URL) (u : URL) (post : list URL),
    urls = pre ++ u :: post /\ all_fail log pre /\
    attempt_error (after_failures log pre) u = None.
Proof.
  revert log. induction urls as [|v urls IH]; intros log; [by left|].
  destruct (attempt_error log v) as [e|] eqn:Hv.
  - destruct (IH (log ++ failed_attempt log v))
      as [Hall|(pre & u & post & -> & Hpre & Hu)].
    + left. cbn. by rewrite Hv.
    + right. exists (v :: pre), u, post. cbn. by rewrite Hv.
  - right. by exists [], v, urls.
Qed.

(** One iteration of the loop. *)
Lemma open_range_cons url urls rsc err log :
  Windows.open_range (url :: urls) rsc err tt log =
    match attempt_error log url with
    | None =>
        Returns (Some (FromHTTP (reader_at log url)), None) tt
                (log ++ [Call_NewHTTPReadSeeker url; Call_Seek (reader_at log url) 0 SEEK_SET])
    | Some e =>
        Windows.open_range urls None (Some e) tt (log ++ failed_attempt log url)
    end.
Proof.
  cbn [Windows.open_range]. unfold Windows.NewHTTPReadSeeker, Windows.Seek, Windows.Close.
  run. unfold attempt_error, reader_at, failed_attempt.
  destruct (http_Seek _ _ _ _) as [n [e|]]; cbn [snd].
  - by rewrite <- !app_assoc.
  - by rewrite <- !app_assoc.
Qed.

(** While attempts fail the loop goes on with the rest of the list, the
    stream variable nil and the error of the last attempt. *)
Lemma open_range_failures pre urls rsc err log :
  all_fail log pre ->
  Windows.open_range (pre ++ urls) rsc err tt log =
    Windows.open_range urls (match pre with [] => rsc | _ => None end)
                       (last_error log pre err) tt (after_failures log pre).
Proof.
  revert log rsc err. induction pre as [|u pre IH]; intros log rsc err Hfail; [done|].
  destruct Hfail as [Hu Hpre]. cbn [app]. rewrite open_range_cons.
  destruct (attempt_error log u) as [e|] eqn:He; [|done].
  rewrite (IH _ None (Some e) Hpre). cbn [after_failures last_error]. rewrite He.
  by destruct pre.
Qed.

(** With a URL in the descriptor, [open] is the loop. *)
Lemma open_with_urls ld u urls log :
  URLs (src ld) = u :: urls ->
  Windows.open ld tt log = Windows.open_range (u :: urls) None None tt log.
Proof. intros Hurls. unfold Windows.open. by rewrite Hurls. Qed.

(** C3.  When the descriptor lists the URLs [pre ++ u :: post], every
    attempt on the URLs of [pre] fails and the attempt on [u] succeeds,
    [open] returns the reader built for [u] in that attempt and a nil
    error.  Its calls are, for each URL of [pre] in order and then for [u]:
    build a reader, seek to offset 0 from the start (and close, for those
    of [pre]).  No reader is built for a URL of [post]. *)
Theorem open_first_success ld pre u post log :
  URLs (src ld) = pre ++ u :: post ->
  all_fail log pre ->
  attempt_error (after_failures log pre) u = None ->
  Windows.open ld tt log =
    Returns (Some (FromHTTP (reader_at (after_failures log pre) u)), None) tt
            (after_failures log pre ++
             [Call_NewHTTPReadSeeker u;
              Call_Seek (reader_at (after_failures log pre) u) 0 SEEK_SET])
  /\ attempted (after_failures log pre ++
                [Call_NewHTTPReadSeeker u;
                 Call_Seek (reader_at (after_failures log pre) u) 0 SEEK_SET])
     = attempted log ++ pre ++ [u].
Proof.
  intros Hurls Hpre Hu. split.
  - assert (Hopen : Windows.open ld tt log =
                    Windows.open_range (pre ++ u :: post) None None tt log).
    { destruct pre; by apply open_with_urls. }
    rewrite Hopen, (open_range_failures pre (u :: post) None None log Hpre).
    by rewrite open_range_cons, Hu.
  - rewrite attempted_app, attempted_after_failures. cbn. by rewrite <- app_assoc.
Qed.

(** C7.  When the descriptor lists the URLs [pre ++ [u]] and every attempt
    fails, [open] returns no stream and the very error that the seek of
    the last attempt, the one on [u], returned. *)
Theorem open_all_fail ld pre u log :
  URLs (src ld) = pre ++ [u] ->
  all_fail log (pre ++ [u]) ->
  exists e,
    attempt_error (after_failures log pre) u = Some e /\
    Windows.open ld tt log = Returns (None, Some e) tt (after_failures log (pre ++ [u])).
Proof.
  intros Hurls Hfail.
  assert (Hlast : attempt_error (after_failures log pre) u <> None).
  { apply all_fail_app in Hfail as [_ [Hu _]]. exact Hu. }
  destruct (attempt_error (after_failures log pre) u) as [e|] eqn:He; [|done].
  exists e. split; [done|].
  assert (Hopen : Windows.open ld tt log =
                  Windows.open_range ((pre ++ [u]) ++ []) None None tt log).
  { rewrite app_nil_r. destruct pre; by apply open_with_urls. }
  rewrite Hopen, (open_range_failures (pre ++ [u]) [] None None log Hfail).
  cbn [Windows.open_range]. rewrite last_error_snoc, He.
  by destruct pre.
Qed.

End LayerDescriptor.

(** ** The Trust Policy Gate *)

Section TrustPolicyGate.
Context {trust : TrustEnv}.

Implicit Types (ref : Named) (unparsed : UnparsedImage) (p : v2Puller) (log : list Call).

(** The policy variant, once the verdict of the engine is known. *)
Lemma checkTrusted_verdict ref unparsed p log allowed err :
  IsRunningImageAllowed (policyContext p) unparsed = (allowed, err) ->
  NotWindows.checkTrusted ref unparsed p log =
    match allowed, err with
    | false, Some e =>
        Returns (None, Some (fmt_Errorf (Named_String ref +:+ " isn't allowed: " +:+ Error e)))
                (set_originalRef ref p) (log ++ [Call_IsRunningImageAllowed])
    | false, None =>
        Returns (None, Some (fmt_Errorf (Named_String ref +:+ " isn't allowed")))
                (set_originalRef ref p) (log ++ [Call_IsRunningImageAllowed])
    | true, Some e =>
        Returns (None, Some e) (set_originalRef ref p) (log ++ [Call_IsRunningImageAllowed])
    | true, None =>
        let '(mfst, _, err) := unparsed_Manifest unparsed in
        let log' := log ++ [Call_IsRunningImageAllowed; Call_Manifest] in
        match err with
        | Some e => Returns (None, Some e) (set_originalRef ref p) log'
        | None =>
            let '(dgst, err) := manifest_Digest mfst in
            match err with
            | Some e => Returns (None, Some e) (set_originalRef ref p) log'
            | None =>
                let '(pinned, err) := reference_WithDigest ref dgst in
                match err with
                | Some e => Returns (None, Some e) (set_originalRef ref p) log'
                | None => Returns (pinned, None) (set_originalRef ref p) log'
                end
            end
        end
    end.
Proof.
  intros Hv. unfold NotWindows.checkTrusted. run. rewrite Hv.
  destruct allowed, err as [e|]; cbn [negb]; try done.
  destruct (unparsed_Manifest unparsed) as [[mfst mime] [e|]];
    [by rewrite <- app_assoc|].
  destruct (manifest_Digest mfst) as [dgst [e|]]; [by rewrite <- app_assoc|].
  destruct (reference_WithDigest ref dgst) as [pinned [e|]]; by rewrite <- app_assoc.
Qed.

(** C1.  The variant without policy returns the reference it was given.
    In the variant with a policy, whatever reference comes back with a nil
    error is [ref] pinned to the digest of the manifest, for every [ref],
    with or without a digest of its own; and it does come back whenever
    the engine allows the image and the manifest, its digest and the
    pinning are obtained without error. *)
Theorem checkTrusted_pinning ref unparsed p log :
  Windows.checkTrusted ref unparsed p log = Returns (Some ref, None) p log
  /\ (forall r p' log',
        NotWindows.checkTrusted ref unparsed p log = Returns (r, None) p' log' ->
        IsRunningImageAllowed (policyContext p) unparsed = (true, None) /\
        r = pinned_reference ref unparsed)
  /\ (IsRunningImageAllowed (policyContext p) unparsed = (true, None) ->
      (unparsed_Manifest unparsed).2 = None ->
      (manifest_Digest (unparsed_Manifest unparsed).1.1).2 = None ->
      (reference_WithDigest ref (manifest_Digest (unparsed_Manifest unparsed).1.1).1).2 = None ->
      NotWindows.checkTrusted ref unparsed p log =
        Returns (pinned_reference ref unparsed, None) (set_originalRef ref p)
                (log ++ [Call_IsRunningImageAllowed; Call_Manifest])).
Proof.
  unfold pinned_reference. split; [done|]. split.
  - intros r p' log' Hret.
    destruct (IsRunningImageAllowed (policyContext p) unparsed) as [allowed err] eqn:Hv.
    rewrite (checkTrusted_verdict ref unparsed p log allowed err Hv) in Hret.
    destruct allowed, err as [e|]; try discriminate.
    destruct (unparsed_Manifest unparsed) as [[mfst mime] [e|]]; [discriminate|].
    cbn [fst snd]. destruct (manifest_Digest mfst) as [dgst [e|]]; [discriminate|].
    cbn [fst snd]. destruct (reference_WithDigest ref dgst) as [pinned [e|]];
      [discriminate|].
    by inversion Hret.
  - intros Hv Hm Hd Hw.
    rewrite (checkTrusted_verdict ref unparsed p log true None Hv).
    destruct (unparsed_Manifest unparsed) as [[mfst mime] em]. cbn [fst snd] in *.
    destruct (manifest_Digest mfst) as [dgst ed]. cbn [fst snd] in *.
    destruct (reference_WithDigest ref dgst) as [pinned ew]. cbn [fst snd] in *.
    by subst.
Qed.

(** C6.  When the engine answers "not allowed", [checkTrusted] returns no
    reference and an error whose message is [<ref> isn't allowed: <reason>]
    when the engine gave an error (reason: its message), and
    [<ref> isn't allowed] when it gave none. *)
Theorem checkTrusted_denied ref unparsed p log err :
  IsRunningImageAllowed (policyContext p) unparsed = (false, err) ->
  NotWindows.checkTrusted ref unparsed p log =
    Returns (None,
             Some (fmt_Errorf
                     match err with
                     | Some e => Named_String ref +:+ " isn't allowed: " +:+ Error e
                     | None => Named_String ref +:+ " isn't allowed"
                     end))
            (set_originalRef ref p) (log ++ [Call_IsRunningImageAllowed]).
Proof.
  intros Hv. rewrite (checkTrusted_verdict ref unparsed p log false err Hv).
  by destruct err.
Qed.

(** C9.  When the engine answers "allowed" together with an error,
    [checkTrusted] returns no reference and that error; the manifest is
    not even asked for. *)
Theorem checkTrusted_allowed_with_error ref unparsed p log e :
  IsRunningImageAllowed (policyContext p) unparsed = (true, Some e) ->
  NotWindows.checkTrusted ref unparsed p log =
    Returns (None, Some e) (set_originalRef ref p) (log ++ [Call_IsRunningImageAllowed]).
Proof.
  intros Hv. by rewrite (checkTrusted_verdict ref unparsed p log true (Some e) Hv).
Qed.

End TrustPolicyGate.

(** * Further properties *)

(** ** open, for every answer of the network *)

Section LayerDescriptorRuns.
Context {net : TransportEnv}.

Implicit Types (log delta : list Call) (u : URL) (urls pre post : list URL).

(** The calls of a run of failed attempts: one reader per URL, each sought
    and closed, and nothing asked from the registry. *)
Lemma after_failures_calls log urls :
  exists delta,
    after_failures log urls = log ++ delta /\ attempted delta = urls /\
    sought delta = closed delta /\ registry_calls delta = [].
Proof.
  revert log. induction urls as [|u urls IH]; intros log.
  - exists []. by rewrite app_nil_r.
  - destruct (IH (log ++ failed_attempt log u)) as (delta & Hlog & Hatt & Hsc & Hreg).
    exists (failed_attempt log u ++ delta). cbn [after_failures].
    rewrite Hlog, <- app_assoc. split; [done|].
    unfold attempted, sought, closed, registry_calls in *.
    rewrite !omap_app, Hatt, Hsc, Hreg. done.
Qed.

Lemma all_fail_last_error log urls err :
  urls <> [] -> all_fail log urls -> last_error log urls err <> None.
Proof.
  intros Hne Hfail. destruct (list_snoc_or_nil urls) as [->|(pre & u & ->)]; [done|].
  rewrite last_error_snoc. apply all_fail_app in Hfail as [_ [Hu _]]. exact Hu.
Qed.

(** Every run of [open] on a descriptor with URLs. *)
Lemma open_run ld log :
  URLs (src ld) <> [] ->
  exists rsc err delta,
    Windows.open ld tt log = Returns (rsc, err) tt (log ++ delta) /\
    (rsc = None <-> err <> None) /\
    sought delta =
      closed delta ++ match rsc with Some (FromHTTP r) => [r] | _ => [] end /\
    attempted delta `prefix_of` URLs (src ld) /\
    attempted delta <> [] /\
    registry_calls delta = [].
Proof.
  intros Hne. destruct (URLs (src ld)) as [|u0 urls0] eqn:Hurls; [done|].
  rewrite (open_with_urls ld u0 urls0 log Hurls).
  destruct (all_fail_or_first_success log (u0 :: urls0))
    as [Hall|(pre & u & post & Hsplit & Hpre & Hu)].
  - pose proof (open_range_failures (u0 :: urls0) [] None None log Hall) as Hrun.
    rewrite app_nil_r in Hrun. rewrite Hrun. cbn [Windows.open_range].
    destruct (after_failures_calls log (u0 :: urls0)) as (delta & -> & Hatt & Hsc & Hreg).
    pose proof (all_fail_last_error log (u0 :: urls0) None Hne Hall) as Herr.
    exists None, (last_error log (u0 :: urls0) None), delta.
    split; [done|]. split; [by split|]. rewrite app_nil_r, Hatt.
    repeat split; done.
  - rewrite Hsplit, (open_range_failures pre (u :: post) None None log Hpre).
    rewrite open_range_cons, Hu.
    destruct (after_failures_calls log pre) as (delta & Hlog & Hatt & Hsc & Hreg).
    exists (Some (FromHTTP (reader_at (after_failures log pre) u))), None,
      (delta ++ [Call_NewHTTPReadSeeker u;
                 Call_Seek (reader_at (after_failures log pre) u) 0 SEEK_SET]).
    split; [by rewrite Hlog, <- app_assoc|].
    split; [done|].
    unfold attempted, sought, closed, registry_calls in *.
    rewrite !omap_app, Hatt, Hsc, Hreg. cbn. rewrite app_nil_r.
    split; [done|]. split; [by exists post; rewrite <- app_assoc|].
    split; [by destruct pre|done].
Qed.

(** X1.  On a descriptor without alternate URLs the windows variant of
    [open] is the other variant: one call to the blob store of the
    registry for the digest of the layer, and what it returns is the
    stream and the error that call gave. *)
Theorem open_without_urls ld log :
  URLs (src ld) = [] ->
  Windows.open ld tt log = NotWindows.open ld tt log /\
  Windows.open ld tt log =
    Returns (FromBlobs <$> (blobs_Open log (digest ld)).1, (blobs_Open log (digest ld)).2)
            tt (log ++ [Call_Blobs_Open (digest ld)]).
Proof.
  intros Hurls. unfold Windows.open, NotWindows.open. rewrite Hurls.
  change (Z.of_nat (length (@nil URL)) =? 0) with true. cbv iota.
  split; [done|]. run. by destruct (blobs_Open log (digest ld)) as [r err].
Qed.

(** X2.  On a descriptor with URLs, [open] returns a stream or an error
    and never both nor neither: the stream is nil exactly when the error
    is not. *)
Theorem open_stream_xor_error ld log :
  URLs (src ld) <> [] ->
  exists rsc err log',
    Windows.open ld tt log = Returns (rsc, err) tt log' /\ (rsc = None <-> err <> None).
Proof.
  intros Hne. destruct (open_run ld log Hne) as (rsc & err & delta & Hrun & Hxor & _).
  by exists rsc, err, (log ++ delta).
Qed.

(** X3.  [open] closes every reader it built except the one it returns:
    among the calls it adds, the readers sought are the readers closed,
    followed by the returned reader when there is one. *)
Theorem open_closes_failed_readers ld log :
  URLs (src ld) <> [] ->
  exists rsc err delta,
    Windows.open ld tt log = Returns (rsc, err) tt (log ++ delta) /\
    sought delta =
      closed delta ++ match rsc with Some (FromHTTP r) => [r] | _ => [] end.
Proof.
  intros Hne. destruct (open_run ld log Hne) as (rsc & err & delta & Hrun & _ & Hsc & _).
  by exists rsc, err, delta.
Qed.

(** X4.  On a descriptor with URLs, the URLs [open] builds a reader for
    are a non-empty prefix of the list, in the order of the list, and the
    blob store of the registry is never asked. *)
Theorem open_attempts_prefix ld log :
  URLs (src ld) <> [] ->
  exists r delta,
    Windows.open ld tt log = Returns r tt (log ++ delta) /\
    attempted delta `prefix_of` URLs (src ld) /\
    attempted delta <> [] /\
    registry_calls delta = [].
Proof.
  intros Hne.
  destruct (open_run ld log Hne) as (rsc & err & delta & Hrun & _ & _ & Hpre & Hatt & Hreg).
  by exists (rsc, err), delta.
Qed.

(** X5.  [Descriptor] reports URLs exactly for a layer of the foreign media
    type that lists some, and then reports [ld.src] itself; for such a
    layer [open] reads from a prefix of the reported URLs and never from
    the registry. *)
Theorem Descriptor_foreign_layer (MediaTypeForeignLayer : string) ld log :
  URLs (Windows.Descriptor MediaTypeForeignLayer ld) <> [] ->
  MediaType (src ld) = MediaTypeForeignLayer /\
  Windows.Descriptor MediaTypeForeignLayer ld = src ld /\
  exists r delta,
    Windows.open ld tt log = Returns r tt (log ++ delta) /\
    attempted delta `prefix_of` URLs (Windows.Descriptor MediaTypeForeignLayer ld) /\
    registry_calls delta = [].
Proof.
  unfold Windows.Descriptor.
  destruct (String.eqb_spec (MediaType (src ld)) MediaTypeForeignLayer) as [Hmt|Hmt];
    cbn [andb]; [|done].
  destruct (0 <? Z.of_nat (length (URLs (src ld)))); [|done].
  intros Hne. split; [done|]. split; [done|].
  destruct (open_run ld log Hne) as (rsc & err & delta & Hrun & _ & _ & Hpre & _ & Hreg).
  by exists (rsc, err), delta.
Qed.

(** X6.  For a layer that lists URLs under another media type than the
    foreign one, [Descriptor] reports the zero descriptor, yet [open]
    still reads the layer from its URLs and never from the registry: the
    two methods do not test the same condition. *)
Theorem Descriptor_zero_yet_open_uses_urls (MediaTypeForeignLayer : string) ld log :
  MediaType (src ld) <> MediaTypeForeignLayer ->
  URLs (src ld) <> [] ->
  Windows.Descriptor MediaTypeForeignLayer ld = zero_Descriptor /\
  exists r delta,
    Windows.open ld tt log = Returns r tt (log ++ delta) /\
    attempted delta <> [] /\
    registry_calls delta = [].
Proof.
  intros Hmt Hne. split.
  - unfold Windows.Descriptor.
    by destruct (String.eqb_spec (MediaType (src ld)) MediaTypeForeignLayer).
  - destruct (open_run ld log Hne) as (rsc & err & delta & Hrun & _ & _ & _ & Hatt & Hreg).
    by exists (rsc, err), delta.
Qed.

End LayerDescriptorRuns.

(** ** detectBaseLayer: decoding errors, empty history, order of visit *)

Section BaseLayerResolverRuns.

Implicit Types (env : BaseLayerEnv) (store : gmap image_ID Image) (m : Manifest).
Implicit Types (fs : RootFS) (log : list Call) (v1img : V1Image) (img : Image).

(** X7.  When the metadata of the last history entry does not decode,
    [detectBaseLayer] returns the error of the decoder as it is, leaves
    the RootFS as it was and does not call the image store. *)
Theorem detectBaseLayer_decode_error {env} store m front h v1img e fs log :
  History m = front ++ [h] ->
  json_Unmarshal (V1Compatibility h) zero_V1Image = (v1img, Some e) ->
  Windows.detectBaseLayer store m fs log = Returns (Some e) fs log.
Proof.
  intros Hm Hjson. by rewrite (detectBaseLayer_last store m front h fs log Hm), Hjson.
Qed.

(** X8.  On a manifest without history entry [detectBaseLayer] panics:
    it indexes [m.History] at [len(m.History)-1] before any test, for
    every store and RootFS, and so neither decodes nor calls the store. *)
Theorem detectBaseLayer_empty_history_panics {env} store m fs log :
  History m = [] ->
  exists reason, Windows.detectBaseLayer store m fs log = Panics reason.
Proof.
  intros Hm. unfold Windows.detectBaseLayer. rewrite Hm, index_nil. by eexists.
Qed.

(** The loop gives one result on two orders of visit of the same images
    when the images that reference the parent share their BaseLayer. *)
Lemma detect_range_permutation {env} imgs1 imgs2 v1img fs log :
  imgs1 ≡ₚ imgs2 ->
  (forall p q, p ∈ imgs1 -> q ∈ imgs1 ->
     Windows.references_base (Parent v1img) p.2 = true ->
     Windows.references_base (Parent v1img) q.2 = true ->
     BaseLayer (img_RootFS p.2) = BaseLayer (img_RootFS q.2)) ->
  Windows.detect_range imgs1 v1img fs log = Windows.detect_range imgs2 v1img fs log.
Proof.
  intros Hperm Hsame.
  assert (Hmid : forall (pre post : list (image_ID * Image)) x, x ∈ pre ++ x :: post).
  { intros pre post x. apply elem_of_app. right. by left. }
  destruct (first_split (fun p => Windows.references_base (Parent v1img) p.2) imgs1)
    as [Hn1|(pre1 & [id1 img1] & post1 & Hs1 & Hpre1 & Hx1)];
  destruct (first_split (fun p => Windows.references_base (Parent v1img) p.2) imgs2)
    as [Hn2|(pre2 & [id2 img2] & post2 & Hs2 & Hpre2 & Hx2)].
  - by rewrite !detect_range_none.
  - exfalso. rewrite Forall_forall in Hn1.
    assert (Hin : (id2, img2) ∈ imgs1) by (rewrite Hperm, Hs2; apply Hmid).
    apply Hn1 in Hin. congruence.
  - exfalso. rewrite Forall_forall in Hn2.
    assert (Hin : (id1, img1) ∈ imgs2) by (rewrite <- Hperm, Hs1; apply Hmid).
    apply Hn2 in Hin. congruence.
  - assert (Hin1 : (id1, img1) ∈ imgs1) by (rewrite Hs1; apply Hmid).
    assert (Hin2 : (id2, img2) ∈ imgs1) by (rewrite Hperm, Hs2; apply Hmid).
    pose proof (Hsame (id1, img1) (id2, img2) Hin1 Hin2 Hx1 Hx2) as Heq.
    cbn [snd] in *. rewrite Hs1, Hs2, !detect_range_first by done. by rewrite Heq.
Qed.

(** X9.  When the stored images of type layers-with-base that share a
    base-layer identifier share their BaseLayer, the outcome of
    [detectBaseLayer] does not depend on the order in which [range] visits
    the store. *)
Theorem detectBaseLayer_order_irrelevant env order1 order2 store m fs log :
  order1 store ≡ₚ map_to_list store ->
  order2 store ≡ₚ map_to_list store ->
  (forall id1 img1 id2 img2,
     store !! id1 = Some img1 -> store !! id2 = Some img2 ->
     Type' (img_RootFS img1) = TypeLayersWithBase ->
     Type' (img_RootFS img2) = TypeLayersWithBase ->
     BaseLayerID (img_RootFS img1) = BaseLayerID (img_RootFS img2) ->
     BaseLayer (img_RootFS img1) = BaseLayer (img_RootFS img2)) ->
  Windows.detectBaseLayer (env := with_range_order env order1) store m fs log =
  Windows.detectBaseLayer (env := with_range_order env order2) store m fs log.
Proof.
  intros Hp1 Hp2 Hunique.
  destruct (list_snoc_or_nil (History m)) as [Hm|(front & h & Hm)].
  - unfold Windows.detectBaseLayer. by rewrite Hm, index_nil.
  - rewrite (detectBaseLayer_last (env := with_range_order env order1) store m front h fs log Hm).
    rewrite (detectBaseLayer_last (env := with_range_order env order2) store m front h fs log Hm).
    cbn [json_Unmarshal strconv_Quote range_order with_range_order].
    destruct (json_Unmarshal _ _) as [v1img [e|]]; [done|].
    destruct (is_empty_string _); [done|].
    change (Windows.detect_range (env := env) (order1 store) v1img fs (log ++ [Call_Map]) =
            Windows.detect_range (env := env) (order2 store) v1img fs (log ++ [Call_Map])).
    apply detect_range_permutation; [by rewrite Hp1, Hp2|].
    intros [id1 img1] [id2 img2] Hin1 Hin2 Hx1 Hx2. cbn [snd] in *.
    rewrite Hp1 in Hin1, Hin2. apply elem_of_map_to_list in Hin1, Hin2.
    apply references_base_true in Hx1 as [Ht1 Hb1].
    apply references_base_true in Hx2 as [Ht2 Hb2].
    apply (Hunique id1 img1 id2 img2); congruence.
Qed.

(** The test of the loop under another method [BaseLayerID] that agrees
    on the RootFS of type layers-with-base. *)
Lemma references_base_BaseLayerID env f parent img :
  (forall r, Type' r = TypeLayersWithBase -> f r = BaseLayerID r) ->
  Windows.references_base (env := with_BaseLayerID env f) parent img =
  Windows.references_base (env := env) parent img.
Proof.
  intros Hf. unfold Windows.references_base. cbn [TypeLayersWithBase BaseLayerID with_BaseLayerID].
  destruct (String.eqb_spec (Type' (img_RootFS img)) TypeLayersWithBase) as [Ht|_]; [|done].
  by rewrite (Hf _ Ht).
Qed.

Lemma detect_range_BaseLayerID env f imgs v1img fs log :
  (forall r, Type' r = TypeLayersWithBase -> f r = BaseLayerID r) ->
  Windows.detect_range (env := with_BaseLayerID env f) imgs v1img fs log =
  Windows.detect_range (env := env) imgs v1img fs log.
Proof.
  intros Hf. induction imgs as [|[id img] imgs IH]; [done|].
  cbn [Windows.detect_range]. rewrite (references_base_BaseLayerID env f _ _ Hf).
  destruct (Windows.references_base _ _); [done|]. exact IH.
Qed.

(** X10.  [detectBaseLayer] calls [BaseLayerID] on RootFS of type
    layers-with-base only: what the method would do on any other RootFS
    has no influence on the outcome. *)
Theorem detectBaseLayer_BaseLayerID_guarded env f store m fs log :
  (forall r, Type' r = TypeLayersWithBase -> f r = BaseLayerID r) ->
  Windows.detectBaseLayer (env := with_BaseLayerID env f) store m fs log =
  Windows.detectBaseLayer (env := env) store m fs log.
Proof.
  intros Hf. unfold Windows.detectBaseLayer.
  cbn [json_Unmarshal strconv_Quote range_order with_BaseLayerID].
  destruct (index _ _) as [h|]; [|done].
  destruct (json_Unmarshal _ _) as [v1img [e|]]; [done|].
  destruct (is_empty_string _); [done|].
  run. by rewrite (detect_range_BaseLayerID env f _ _ _ _ Hf).
Qed.

End BaseLayerResolverRuns.

(** ** checkTrusted, on every path *)

Section TrustPolicyGateRuns.
Context {trust : TrustEnv}.

Implicit Types (ref : Named) (unparsed : UnparsedImage) (p : v2Puller) (log : list Call).

(** Every run of the policy variant: it returns, with the puller updated
    by the first statement and one of two logs. *)
Lemma checkTrusted_run ref unparsed p log :
  exists r err delta,
    NotWindows.checkTrusted ref unparsed p log =
      Returns (r, err) (set_originalRef ref p) (log ++ delta) /\
    (err <> None -> r = None) /\
    (delta = [Call_IsRunningImageAllowed] \/
     delta = [Call_IsRunningImageAllowed; Call_Manifest]) /\
    (Call_Manifest ∈ delta <->
     IsRunningImageAllowed (policyContext p) unparsed = (true, None)).
Proof.
  destruct (IsRunningImageAllowed (policyContext p) unparsed) as [allowed verr] eqn:Hv.
  rewrite (checkTrusted_verdict ref unparsed p log allowed verr Hv).
  assert (Hno : ~ Call_Manifest ∈ [Call_IsRunningImageAllowed]).
  { intros Hin. apply list_elem_of_singleton in Hin. discriminate Hin. }
  assert (Hyes : Call_Manifest ∈ [Call_IsRunningImageAllowed; Call_Manifest]).
  { right. left. }
  destruct allowed, verr as [e|].
  - eexists _, _, _. split; [done|]. split; [done|]. split; [by left|].
    split; [done|discriminate].
  - destruct (unparsed_Manifest unparsed) as [[mfst mime] [e|]];
      [|destruct (manifest_Digest mfst) as [dgst [e|]];
        [|destruct (reference_WithDigest ref dgst) as [pinned [e|]]]];
      (eexists _, _, _; split; [done|]; split; [done|]; split; [by right|done]).
  - eexists _, _, _. split; [done|]. split; [done|]. split; [by left|].
    split; [done|discriminate].
  - eexists _, _, _. split; [done|]. split; [done|]. split; [by left|].
    split; [done|discriminate].
Qed.

(** X11.  The policy variant of [checkTrusted] always returns, and on every
    path, denial and errors included, the puller then holds the reference
    it was called with as [originalRef] and the policy context it had. *)
Theorem checkTrusted_records_originalRef ref unparsed p log :
  exists result p' log',
    NotWindows.checkTrusted ref unparsed p log = Returns result p' log' /\
    originalRef p' = Some ref /\ policyContext p' = policyContext p.
Proof.
  destruct (checkTrusted_run ref unparsed p log) as (r & err & delta & Hrun & _).
  by exists (r, err), (set_originalRef ref p), (log ++ delta).
Qed.

(** X12.  Whatever the collaborators answer, the reference that
    [checkTrusted] returns next to an error is nil. *)
Theorem checkTrusted_error_without_reference ref unparsed p log :
  exists r err p' log',
    NotWindows.checkTrusted ref unparsed p log = Returns (r, err) p' log' /\
    (err <> None -> r = None).
Proof.
  destruct (checkTrusted_run ref unparsed p log) as (r & err & delta & Hrun & Hnil & _).
  by exists r, err, (set_originalRef ref p), (log ++ delta).
Qed.

(** X13.  After the engine allowed the image, the first error among
    fetching the manifest, digesting it and pinning the reference is
    returned as it is, without reference. *)
Theorem checkTrusted_first_error ref unparsed p log e :
  IsRunningImageAllowed (policyContext p) unparsed = (true, None) ->
  first_error
    (unparsed_Manifest unparsed).2
    (manifest_Digest (unparsed_Manifest unparsed).1.1).2
    (reference_WithDigest ref (manifest_Digest (unparsed_Manifest unparsed).1.1).1).2
    = Some e ->
  NotWindows.checkTrusted ref unparsed p log =
    Returns (None, Some e) (set_originalRef ref p)
            (log ++ [Call_IsRunningImageAllowed; Call_Manifest]).
Proof.
  intros Hv. rewrite (checkTrusted_verdict ref unparsed p log true None Hv).
  destruct (unparsed_Manifest unparsed) as [[mfst mime] [em|]]; cbn [fst snd first_error].
  - by intros [= ->].
  - destruct (manifest_Digest mfst) as [dgst [ed|]]; cbn [fst snd].
    + by intros [= ->].
    + destruct (reference_WithDigest ref dgst) as [pinned [ew|]]; cbn [fst snd].
      * by intros [= ->].
      * discriminate.
Qed.

(** X14.  [checkTrusted] asks the policy engine first and once, and asks
    for the manifest, once, exactly when the engine allowed the image
    without error: the manifest of an image that was denied, or allowed
    with an error, is never fetched. *)
Theorem checkTrusted_manifest_after_allow ref unparsed p log :
  exists result p' delta,
    NotWindows.checkTrusted ref unparsed p log = Returns result p' (log ++ delta) /\
    (delta = [Call_IsRunningImageAllowed] \/
     delta = [Call_IsRunningImageAllowed; Call_Manifest]) /\
    (Call_Manifest ∈ delta <->
     IsRunningImageAllowed (policyContext p) unparsed = (true, None)).
Proof.
  destruct (checkTrusted_run ref unparsed p log) as (r & err & delta & Hrun & _ & Hd & Hm).
  by exists (r, err), (set_originalRef ref p), delta.
Qed.

End TrustPolicyGateRuns.

(** ** ciImage *)

Section ImageSourceRuns.
Context {trust : TrustEnv} {source : ImageSourceEnv}.

Implicit Types (p : v2Puller_registry) (c : gctx_Context) (ref : Named).

(** X15.  [ciImage] returns the image, its closer and a nil error together,
    or none of the first two and an error; the closer is the image source
    the image was made of. *)
Theorem ciImage_image_with_closer p c ref :
  (exists e, NotWindows.ciImage p c ref = (None, None, Some e)) \/
  (exists src, NotWindows.ciImage p c ref = (Some (UnparsedInstance src), Some src, None)).
Proof.
  unfold NotWindows.ciImage.
  destruct (ParseNormalizedNamed _) as [dockerRef [e|]]; [left; by exists e|].
  destruct (docker_NewReference _) as [imgRef [e|]]; [left; by exists e|].
  destruct (NewImageSource _ _) as [src [e|]]; [left; by exists e|].
  right. by exists src.
Qed.

(** X16.  The context [ciImage] opens the image source with skips the
    verification of TLS certificates exactly when the endpoint has a TLS
    configuration with InsecureSkipVerify set (without configuration it
    verifies), and names a certificate directory, the one of the index
    under [registry.CertsDir], only for an index the registry service
    holds secure. *)
Theorem systemContext_security p c :
  (DockerInsecureSkipTLSVerify (NotWindows.systemContext p c) = true <->
   exists tlsConfig,
     TLSConfig (endpoint p) = Some tlsConfig /\ InsecureSkipVerify tlsConfig = true) /\
  (DockerCertPath (NotWindows.systemContext p c) <> EmptyString ->
   SecureIndex (config_RegistryService (config p)) (Index_Name (Index (repoInfo p))) = true) /\
  (SecureIndex (config_RegistryService (config p)) (Index_Name (Index (repoInfo p))) = true ->
   DockerCertPath (NotWindows.systemContext p c) =
     filepath_Join CertsDir (Index_Name (Index (repoInfo p)))).
Proof.
  unfold NotWindows.systemContext. split; [|split; [|by intros ->]].
  - destruct (SecureIndex _ _); cbn;
      (destruct (TLSConfig (endpoint p)) as [[skip]|]; cbn;
       [destruct skip; cbn; split; [by eexists | done | done | by intros (? & [= <-] & ?)]
       |split; [done | by intros (? & ? & ?)]]).
  - destruct (SecureIndex _ _); [done|]. cbn. done.
Qed.

End ImageSourceRuns.

(** * Runs on concrete inputs

    The theorems above, applied with the stand-ins of [Sample]. *)

Section Runs.
Import Sample.

(** Store: one image on base layer A.  Manifest: the first entry declares
    parent A, the last declares parent B.  With base layers identified by
    their name, as in [Sample], decoding the first entry would resolve to
    A; the run reports that B is missing. *)
Example detectBaseLayer_manifest_AB :
  Windows.detectBaseLayer (env := base_layer_env) store_A manifest_AB fs0 [] =
    Returns (Some (errorString ("Invalid base layer " +:+ dq +:+ "B" +:+ dq))) fs0 [Call_Map]
  /\ Windows.detectBaseLayer (env := base_layer_env) store_A
        (manifest_of [entry "first" "A"]) fs0 [] =
    Returns None {| Type' := "layers+base"; DiffIDs := ["d1"; "d2"]; BaseLayer := "A" |}
            [Call_Map].
Proof. split; reflexivity. Qed.

(** C2 as the spec states it fails: the run on a manifest is not, in
    general, the run on its first history entry alone. *)
Lemma detectBaseLayer_first_entry_counterexample :
  ~ (forall (store : gmap image_ID Image) (m : Manifest) (h : History_entry)
            (rest : list History_entry) (fs : RootFS) (log : list Call),
       History m = h :: rest ->
       Windows.detectBaseLayer (env := base_layer_env) store m fs log =
       Windows.detectBaseLayer (env := base_layer_env) store (with_History [h] m) fs log).
Proof.
  intros Hfirst.
  specialize (Hfirst store_A manifest_AB (entry "first" "A") [entry "last" "B"] fs0 []
                     eq_refl).
  vm_compute in Hfirst. discriminate Hfirst.
Qed.

Lemma detectBaseLayer_decodes_last_entry_witness :
  Windows.detectBaseLayer (env := base_layer_env) store_AC manifest_AB fs0 [] =
    Windows.detect_range (env := base_layer_env) (map_to_list store_AC)
      {| ID := "last"; Parent := "B" |} fs0 [Call_Map]
  /\ Windows.detectBaseLayer (env := base_layer_env) store_AC manifest_AB fs0 [] =
     Windows.detectBaseLayer (env := base_layer_env) store_AC
       (with_History [entry "last" "B"] manifest_AB) fs0 [].
Proof.
  apply (detectBaseLayer_decodes_last_entry (env := base_layer_env) store_AC manifest_AB
           [entry "first" "A"] (entry "last" "B") fs0 []).
  reflexivity.
Defined.

Lemma detectBaseLayer_unresolved_witness :
  Windows.detectBaseLayer (env := base_layer_env) store_A (manifest_of [entry "top" "Z"]) fs0 [] =
    Returns (Some (errorString ("Invalid base layer " +:+ quote "Z"))) fs0 [Call_Map].
Proof.
  apply (detectBaseLayer_unresolved (env := base_layer_env) store_A (manifest_of [entry "top" "Z"])
           [] (entry "top" "Z") {| ID := "top"; Parent := "Z" |} fs0 []).
  - reflexivity.
  - reflexivity.
  - reflexivity.
  - discriminate.
  - intros id img Hl [_ Hid]. unfold store_A in Hl.
    apply lookup_singleton_Some in Hl as [_ <-]. discriminate Hid.
Defined.

Lemma detectBaseLayer_missing_parent_witness :
  Windows.detectBaseLayer (env := base_layer_env) store_AC
      (manifest_of [entry "first" "A"; {| V1Compatibility := v1compat_root "base" |}])
      fs0 [] =
    Returns (Some (errorString ("Last layer " +:+ quote "base"
                                +:+ " does not have a base layer reference")))
            fs0 [].
Proof.
  apply (detectBaseLayer_missing_parent (env := base_layer_env) store_AC _ [entry "first" "A"]
           {| V1Compatibility := v1compat_root "base" |}
           {| ID := "base"; Parent := EmptyString |} fs0 []).
  - reflexivity.
  - reflexivity.
  - reflexivity.
Defined.

Lemma detectBaseLayer_resolved_witness :
  exists id img,
    store_AC !! id = Some img /\
    Type' (img_RootFS img) = "layers+base" /\
    BaseLayer (img_RootFS img) = "C" /\
    Windows.detectBaseLayer (env := base_layer_env) store_AC
        (manifest_of [entry "top" "x"; entry "base" "C"]) fs0 [] =
      Returns None
              {| Type' := "layers+base"; DiffIDs := ["d1"; "d2"];
                 BaseLayer := BaseLayer (img_RootFS img) |}
              [Call_Map].
Proof.
  apply (detectBaseLayer_resolved (env := base_layer_env) store_AC
           (manifest_of [entry "top" "x"; entry "base" "C"])
           [entry "top" "x"] (entry "base" "C") {| ID := "base"; Parent := "C" |} fs0 []).
  - reflexivity.
  - reflexivity.
  - reflexivity.
  - discriminate.
  - exists "img2", (based_on "C"). repeat split; reflexivity.
Defined.

(** The spec's scenario: u1 fails, u2 and u3 would answer. *)
Example open_u1_dead :
  Windows.open (net := transport_env ["http://u1"]) foreign_layer tt [] =
    Returns (Some (FromHTTP {| hrs_url := "http://u2"; hrs_serial := 3 |}), None) tt
      [Call_NewHTTPReadSeeker "http://u1";
       Call_Seek {| hrs_url := "http://u1"; hrs_serial := 0 |} 0 0;
       Call_Close {| hrs_url := "http://u1"; hrs_serial := 0 |};
       Call_NewHTTPReadSeeker "http://u2";
       Call_Seek {| hrs_url := "http://u2"; hrs_serial := 3 |} 0 0].
Proof. reflexivity. Qed.

Lemma open_first_success_witness :
  Windows.open (net := transport_env ["http://u1"]) foreign_layer tt [] =
    Returns (Some (FromHTTP {| hrs_url := "http://u2"; hrs_serial := 3 |}), None) tt
      [Call_NewHTTPReadSeeker "http://u1";
       Call_Seek {| hrs_url := "http://u1"; hrs_serial := 0 |} 0 0;
       Call_Close {| hrs_url := "http://u1"; hrs_serial := 0 |};
       Call_NewHTTPReadSeeker "http://u2";
       Call_Seek {| hrs_url := "http://u2"; hrs_serial := 3 |} 0 0]
  /\ attempted
       [Call_NewHTTPReadSeeker "http://u1";
        Call_Seek {| hrs_url := "http://u1"; hrs_serial := 0 |} 0 0;
        Call_Close {| hrs_url := "http://u1"; hrs_serial := 0 |};
        Call_NewHTTPReadSeeker "http://u2";
        Call_Seek {| hrs_url := "http://u2"; hrs_serial := 3 |} 0 0]
     = ["http://u1"; "http://u2"].
Proof.
  apply (open_first_success (net := transport_env ["http://u1"]) foreign_layer
           ["http://u1"] "http://u2" ["http://u3"] []).
  - reflexivity.
  - split; [vm_compute; discriminate | exact I].
  - reflexivity.
Defined.

Lemma open_all_fail_witness :
  exists e,
    attempt_error (net := transport_env ["http://u1"; "http://u2"; "http://u3"])
      (after_failures [] ["http://u1"; "http://u2"]) "http://u3" = Some e /\
    Windows.open (net := transport_env ["http://u1"; "http://u2"; "http://u3"])
      foreign_layer tt [] =
      Returns (None, Some e) tt
              (after_failures [] (["http://u1"; "http://u2"] ++ ["http://u3"])).
Proof.
  apply (open_all_fail (net := transport_env ["http://u1"; "http://u2"; "http://u3"])
           foreign_layer ["http://u1"; "http://u2"] "http://u3" []).
  - reflexivity.
  - repeat split; vm_compute; discriminate.
Defined.

(** All three URLs dead: the error is the one of u3. *)
Example open_all_dead :
  Windows.open (net := transport_env ["http://u1"; "http://u2"; "http://u3"])
    foreign_layer tt [] =
  Returns (None, Some (dead_error "http://u3")) tt
          (after_failures [] ["http://u1"; "http://u2"; "http://u3"]).
Proof. reflexivity. Qed.

Lemma checkTrusted_pinning_witness :
  NotWindows.checkTrusted (trust := trust_env) ref_digested unparsed0 (puller (true, None)) [] =
    Returns (Some {| ref_name := "repo/image"; ref_tag := None;
                     ref_digest := Some "sha256:MANIFEST" |}, None)
            (@Build_v2Puller trust_env (true, None) (Some ref_digested))
            [Call_IsRunningImageAllowed; Call_Manifest].
Proof.
  apply (proj2 (proj2 (checkTrusted_pinning (trust := trust_env) ref_digested unparsed0
                         (puller (true, None)) []))); reflexivity.
Defined.

(** The same image through the variant without policy. *)
Example checkTrusted_no_policy :
  Windows.checkTrusted (trust := trust_env) ref_tagged unparsed0 (puller (true, None)) [] =
    Returns (Some ref_tagged, None) (puller (true, None)) [].
Proof. reflexivity. Qed.

Lemma checkTrusted_denied_witness :
  NotWindows.checkTrusted (trust := trust_env) ref_tagged unparsed0
      (puller (false, Some (errorString "signature required"))) [] =
    Returns (None, Some (errorString "repo/image:latest isn't allowed: signature required"))
            (@Build_v2Puller trust_env (false, Some (errorString "signature required"))
                             (Some ref_tagged))
            [Call_IsRunningImageAllowed].
Proof.
  apply (checkTrusted_denied (trust := trust_env) ref_tagged unparsed0
           (puller (false, Some (errorString "signature required"))) []
           (Some (errorString "signature required"))).
  reflexivity.
Defined.

(** A denial without reason. *)
Example checkTrusted_denied_without_reason :
  NotWindows.checkTrusted (trust := trust_env) ref_tagged unparsed0 (puller (false, None)) [] =
    Returns (None, Some (errorString "repo/image:latest isn't allowed"))
            (@Build_v2Puller trust_env (false, None) (Some ref_tagged))
            [Call_IsRunningImageAllowed].
Proof. reflexivity. Qed.

Lemma checkTrusted_allowed_with_error_witness :
  NotWindows.checkTrusted (trust := trust_env) ref_tagged unparsed0
      (puller (true, Some (errorString "policy file unreadable"))) [] =
    Returns (None, Some (errorString "policy file unreadable"))
            (@Build_v2Puller trust_env (true, Some (errorString "policy file unreadable"))
                             (Some ref_tagged))
            [Call_IsRunningImageAllowed].
Proof.
  apply (checkTrusted_allowed_with_error (trust := trust_env) ref_tagged unparsed0
           (puller (true, Some (errorString "policy file unreadable"))) []
           (errorString "policy file unreadable")).
  reflexivity.
Defined.

(** The further properties on the same inputs. *)

Lemma open_without_urls_witness :
  Windows.open (net := transport_env []) registry_layer tt [] =
  NotWindows.open (net := transport_env []) registry_layer tt [] /\
  Windows.open (net := transport_env []) registry_layer tt [] =
    Returns (Some (FromBlobs (net := transport_env []) "sha256:bb"), None) tt
            [Call_Blobs_Open "sha256:bb"].
Proof.
  apply (open_without_urls (net := transport_env []) registry_layer []). reflexivity.
Defined.

Lemma open_stream_xor_error_witness :
  exists rsc err log',
    Windows.open (net := transport_env ["http://u1"]) foreign_layer tt [] =
      Returns (rsc, err) tt log' /\ (rsc = None <-> err <> None).
Proof.
  apply (open_stream_xor_error (net := transport_env ["http://u1"]) foreign_layer []).
  discriminate.
Defined.

Lemma open_closes_failed_readers_witness :
  exists rsc err delta,
    Windows.open (net := transport_env ["http://u1"]) foreign_layer tt [] =
      Returns (rsc, err) tt ([] ++ delta) /\
    sought delta =
      closed delta ++ match rsc with Some (FromHTTP r) => [r] | _ => [] end.
Proof.
  apply (open_closes_failed_readers (net := transport_env ["http://u1"]) foreign_layer []).
  discriminate.
Defined.

Lemma open_attempts_prefix_witness :
  exists r delta,
    Windows.open (net := transport_env ["http://u1"]) foreign_layer tt [] =
      Returns r tt ([] ++ delta) /\
    attempted delta `prefix_of` URLs (src foreign_layer) /\
    attempted delta <> [] /\
    registry_calls delta = [].
Proof.
  apply (open_attempts_prefix (net := transport_env ["http://u1"]) foreign_layer []).
  discriminate.
Defined.

Lemma Descriptor_foreign_layer_witness :
  MediaType (src foreign_layer) = foreign /\
  Windows.Descriptor foreign foreign_layer = src foreign_layer /\
  exists r delta,
    Windows.open (net := transport_env ["http://u1"]) foreign_layer tt [] =
      Returns r tt ([] ++ delta) /\
    attempted delta `prefix_of` URLs (Windows.Descriptor foreign foreign_layer) /\
    registry_calls delta = [].
Proof.
  apply (Descriptor_foreign_layer (net := transport_env ["http://u1"]) foreign
           foreign_layer []).
  vm_compute. discriminate.
Defined.

Lemma Descriptor_zero_yet_open_uses_urls_witness :
  Windows.Descriptor foreign mislabelled_layer = zero_Descriptor /\
  exists r delta,
    Windows.open (net := transport_env []) mislabelled_layer tt [] =
      Returns r tt ([] ++ delta) /\
    attempted delta <> [] /\
    registry_calls delta = [].
Proof.
  apply (Descriptor_zero_yet_open_uses_urls (net := transport_env []) foreign
           mislabelled_layer []).
  - vm_compute. discriminate.
  - discriminate.
Defined.

(** The mislabelled layer is read from its URL. *)
Example open_mislabelled_layer :
  Windows.open (net := transport_env []) mislabelled_layer tt [] =
    Returns (Some (FromHTTP {| hrs_url := "http://u2"; hrs_serial := 0 |}), None) tt
      [Call_NewHTTPReadSeeker "http://u2";
       Call_Seek {| hrs_url := "http://u2"; hrs_serial := 0 |} 0 0].
Proof. reflexivity. Qed.

Lemma detectBaseLayer_empty_history_panics_witness :
  exists reason,
    Windows.detectBaseLayer (env := base_layer_env) store_AC (manifest_of []) fs0 [] =
    Panics reason.
Proof.
  apply (detectBaseLayer_empty_history_panics (env := base_layer_env) store_AC
           (manifest_of []) fs0 []).
  reflexivity.
Defined.

Lemma detectBaseLayer_decode_error_witness :
  Windows.detectBaseLayer (env := base_layer_env) store_AC manifest_garbled fs0 [] =
    Returns (Some (errorString "invalid character looking for beginning of value")) fs0 [].
Proof.
  apply (detectBaseLayer_decode_error (env := base_layer_env) store_AC manifest_garbled
           [entry "first" "A"] {| V1Compatibility := "garbage" |} zero_V1Image
           (errorString "invalid character looking for beginning of value") fs0 []).
  - reflexivity.
  - reflexivity.
Defined.

Lemma detectBaseLayer_order_irrelevant_witness :
  Windows.detectBaseLayer (env := with_range_order base_layer_env map_to_list)
    store_AC (manifest_of [entry "base" "C"]) fs0 [] =
  Windows.detectBaseLayer (env := with_range_order base_layer_env reversed)
    store_AC (manifest_of [entry "base" "C"]) fs0 [].
Proof.
  apply (detectBaseLayer_order_irrelevant base_layer_env map_to_list reversed store_AC
           (manifest_of [entry "base" "C"]) fs0 []).
  - reflexivity.
  - apply reverse_Permutation.
  - intros id1 img1 id2 img2 _ _ _ _ Hid. exact Hid.
Defined.

Lemma detectBaseLayer_BaseLayerID_guarded_witness :
  Windows.detectBaseLayer (env := with_BaseLayerID base_layer_env BaseLayerID_or_none)
    store_AC manifest_AB fs0 [] =
  Windows.detectBaseLayer (env := base_layer_env) store_AC manifest_AB fs0 [].
Proof.
  apply (detectBaseLayer_BaseLayerID_guarded base_layer_env BaseLayerID_or_none store_AC
           manifest_AB fs0 []).
  intros r Hr. unfold BaseLayerID_or_none. cbn in Hr. rewrite Hr. reflexivity.
Defined.

Lemma checkTrusted_first_error_witness :
  NotWindows.checkTrusted (trust := trust_env) ref_tagged unparsed_unreachable
      (puller (true, None)) [] =
    Returns (None, Some (errorString "manifest unknown"))
            (@Build_v2Puller trust_env (true, None) (Some ref_tagged))
            [Call_IsRunningImageAllowed; Call_Manifest].
Proof.
  apply (checkTrusted_first_error (trust := trust_env) ref_tagged unparsed_unreachable
           (puller (true, None)) [] (errorString "manifest unknown")).
  - reflexivity.
  - reflexivity.
Defined.

(** An endpoint without TLS configuration on an index held secure: the
    certificates are verified and looked up under the directory of the
    index. *)
Example ciImage_secure_index :
  NotWindows.ciImage (trust := trust_env) (source := image_source_env)
    (registry_puller None [] "docker.io") "pull" ref_tagged =
  let ctx :=
    {| DockerDisableV1Ping := true;
       DockerInsecureSkipTLSVerify := false;
       DockerAuthConfig_of :=
         Some {| auth_Username := EmptyString; auth_Password := EmptyString |};
       DockerRegistryUserAgent := "docker/1.12 pull";
       DockerCertPath := "/etc/docker/certs.d/docker.io" |} in
  (Some ("//docker.io/repo/image:latest", ctx),
   Some ("//docker.io/repo/image:latest", ctx), None).
Proof. reflexivity. Qed.

End Runs.
